(** * DMODEL decoder: a shallow embedding of [driver_dmodel.py]

    The low-level decoding functions of the importer ([_read_u16],
    [_read_u32], [_decode_header], [_read_vertices], [_parse_poly_commands])
    and the decoding block of the operator's [execute] are written as Rocq
    functions over a byte list.  Python exceptions are the [Raise] branch of
    a result type; Python [int] is [Z]; Python [float] is the kernel's
    binary64 [float]. *)

From Stdlib Require Import ZArith List Lia Bool.
From Stdlib.Sorting Require Import Sorted.
From Stdlib.Strings Require Import Byte.
From Stdlib Require Import Uint63 PrimFloat SpecFloat FloatOps.
Import ListNotations.
Open Scope Z_scope.

(** ** Exceptions and the result monad *)

(** The three messages the decoder puts in a [ValueError]. *)
Inductive message : Type :=
| FileTooSmall
    (* "File too small to be a valid DMODEL" *)
| CommandBufferOverrun (cmd_idx p : Z)
    (* f"Command buffer overrun at command {cmd_idx}, offset 0x{p:x}" *)
| UnknownOpcode (op p : Z).
    (* f"Unknown opcode 0x{op:02X} at offset 0x{p:X}" *)

(** What a decoding call can raise: its own [ValueError]s, [struct.error]
    from [struct.unpack_from], and [IndexError] from indexing [bytes]. *)
Inductive exn : Type :=
| ValueError (m : message)
| struct_error
| IndexError.

Inductive result (A : Type) : Type :=
| Ok (a : A)
| Raise (e : exn).

Arguments Ok {A} a.
Arguments Raise {A} e.

Definition bind {A B : Type} (r : result A) (k : A -> result B) : result B :=
  match r with
  | Ok a => k a
  | Raise e => Raise e
  end.

Notation "x <- r ;; k" := (bind r (fun x => k))
  (at level 61, r at next level, right associativity).
Notation "' pat <- r ;; k" := (bind r (fun x => match x with pat => k end))
  (at level 61, pat pattern, r at next level, right associativity).

(** ** Python [bytes] and [struct.unpack_from] *)

Module Py.

Definition bytes : Type := list byte.

Definition len (data : bytes) : Z := Z.of_nat (length data).

Definition byte_val (b : byte) : Z := Z.of_N (Byte.to_N b).

(** The byte stored at position [i] (meaningful for [0 <= i < len data]). *)
Definition byte_at (data : bytes) (i : Z) : Z :=
  byte_val (nth (Z.to_nat i) data x00).

(** [data[i]]: a negative index counts from the end; an index outside
    [-len .. len-1] raises [IndexError]. *)
Definition getitem (data : bytes) (i : Z) : result Z :=
  let n := len data in
  let j := if i <? 0 then i + n else i in
  if (j <? 0) || (n <=? j) then Raise IndexError
  else Ok (byte_at data j).

(** The bounds discipline of [struct.unpack_from(fmt, data, offset)] for a
    format of [size] bytes: a negative offset counts from the end, and the
    call raises [struct.error] unless [size] bytes are available. *)
Definition unpack_from (size : Z) (data : bytes) (offset : Z)
  : result (list byte) :=
  let n := len data in
  if (offset <? 0) && (offset + n <? 0) then Raise struct_error
  else
    let off := if offset <? 0 then offset + n else offset in
    if n - off <? size then Raise struct_error
    else Ok (firstn (Z.to_nat size) (skipn (Z.to_nat off) data)).

(** Little-endian unsigned integer held in a byte string. *)
Fixpoint le_uint (bs : list byte) : Z :=
  match bs with
  | [] => 0
  | b :: bs' => byte_val b + 256 * le_uint bs'
  end.

(** An IEEE 754 binary32 bit pattern as the binary64 value Python's
    ["f"] format yields; every NaN pattern is the one [nan] of the kernel's
    floats. *)
Definition float_of_bits32 (w : Z) : float :=
  let s := Z.testbit w 31 in
  let e := Z.land (Z.shiftr w 23) 0xFF in
  let m := Z.land w 0x7FFFFF in
  if e =? 0xFF then
    if m =? 0 then (if s then neg_infinity else infinity) else nan
  else if e =? 0 then
    if m =? 0 then (if s then neg_zero else zero)
    else SF2Prim (S754_finite s (Z.to_pos m) (-149))
  else SF2Prim (S754_finite s (Z.to_pos (m + 0x800000)) (e - 150)).

(** [int / float]: the integer is converted to a float first. *)
Definition float_of_int (z : Z) : float := PrimFloat.of_uint63 (Uint63.of_Z z).

(** ["<H"] *)
Definition unpack_H (data : bytes) (off : Z) : result Z :=
  bs <- unpack_from 2 data off ;;
  Ok (le_uint bs).

(** ["<I"] *)
Definition unpack_I (data : bytes) (off : Z) : result Z :=
  bs <- unpack_from 4 data off ;;
  Ok (le_uint bs).

(** ["<HHH"] *)
Definition unpack_HHH (data : bytes) (off : Z) : result (Z * Z * Z) :=
  bs <- unpack_from 6 data off ;;
  Ok (le_uint (firstn 2 bs),
      le_uint (firstn 2 (skipn 2 bs)),
      le_uint (firstn 2 (skipn 4 bs))).

(** ["<fff"] *)
Definition unpack_fff (data : bytes) (off : Z)
  : result (float * float * float) :=
  bs <- unpack_from 12 data off ;;
  Ok (float_of_bits32 (le_uint (firstn 4 bs)),
      float_of_bits32 (le_uint (firstn 4 (skipn 4 bs))),
      float_of_bits32 (le_uint (firstn 4 (skipn 8 bs)))).

End Py.

Import Py.

(** ** Low-level DMODEL decoding *)

Definition _read_u16 (data : bytes) (off : Z) : result Z :=
  unpack_H data off.

Definition _read_u32 (data : bytes) (off : Z) : result Z :=
  unpack_I data off.

(** The dictionary [_decode_header] returns, one field per key. *)
Record header : Type := mk_header {
  vertex_count : Z;
  poly_cmd_count : Z;
  mesh_count : Z;
  vert_offset : Z;
  plane_offset : Z;
  normal_offset : Z;
  cmd_offset : Z
}.

Definition _decode_header (data : bytes) : result header :=
  if len data <? 0x30 then Raise (ValueError FileTooSmall)
  else
    vertex_count <- _read_u16 data 0x14 ;;
    poly_cmd_count <- _read_u16 data 0x16 ;;
    mesh_count <- _read_u16 data 0x1A ;;
    vert_offset <- _read_u32 data 0x20 ;;
    plane_offset <- _read_u32 data 0x24 ;;
    normal_offset <- _read_u32 data 0x28 ;;
    cmd_offset <- _read_u32 data 0x2C ;;
    Ok (mk_header vertex_count poly_cmd_count mesh_count
                  vert_offset plane_offset normal_offset cmd_offset).

(** [for i in range(count)]: the body runs on [i = start, start+1, ...] and
    the first exception leaves the loop. *)
Fixpoint for_range {St : Type} (body : Z -> St -> result St)
         (start : Z) (count : nat) (s : St) : result St :=
  match count with
  | O => Ok s
  | S k => s' <- body start s ;; for_range body (start + 1) k s'
  end.

Definition vertex : Type := (float * float * float)%type.

(** One iteration of the loop of [_read_vertices]. *)
Definition read_vertex (data : bytes) (base : Z) (i : Z)
           (verts : list vertex) : result (list vertex) :=
  '(x, y, z) <- unpack_fff data (base + i * 12) ;;
  Ok (verts ++ [((- x / 10)%float, (- y / 10)%float, (z / 10)%float)]).

Definition _read_vertices (data : bytes) (vert_offset vertex_count : Z)
  : result (list vertex) :=
  let base := vert_offset in
  for_range (read_vertex data base) 0 (Z.to_nat vertex_count) [].

Definition triangle : Type := (Z * Z * Z)%type.
Definition uv : Type := (float * float)%type.

(** The locals of [_parse_poly_commands] that live across iterations. *)
Record cmd_state : Type := mk_state {
  st_p : Z;
  st_tris : list triangle;
  st_uvs_per_tri : list (list uv);
  st_mat_ids : list Z
}.

(** [data[off] / 256.0] *)
Definition uv_byte (data : bytes) (off : Z) : result float :=
  b <- getitem data off ;;
  Ok (float_of_int b / 256)%float.

Definition zero_uvs : list uv := [(0, 0); (0, 0); (0, 0)]%float.

(** The textured triangle of opcodes 0x14 and 0x16: the UV bytes start at
    [p + uv_off], the record is [size] bytes long. *)
Definition tri_uv_cmd (data : bytes) (st : cmd_state) (mesh_id : Z)
           (uv_off size : Z) : result cmd_state :=
  let p := st_p st in
  a <- _read_u16 data (p + 2) ;;
  b <- _read_u16 data (p + 4) ;;
  c <- _read_u16 data (p + 6) ;;
  let '(i0, i1, i2) := (c, b, a) in
  u2 <- uv_byte data (p + uv_off) ;;
  v2 <- uv_byte data (p + uv_off + 1) ;;
  u1 <- uv_byte data (p + uv_off + 2) ;;
  v1 <- uv_byte data (p + uv_off + 3) ;;
  u0 <- uv_byte data (p + uv_off + 4) ;;
  v0 <- uv_byte data (p + uv_off + 5) ;;
  Ok (mk_state (p + size)
        (st_tris st ++ [(i0, i1, i2)])
        (st_uvs_per_tri st ++ [[(u0, v0); (u1, v1); (u2, v2)]])
        (st_mat_ids st ++ [mesh_id])).

(** The textured quad of opcodes 0x15 and 0x17, split in two triangles. *)
Definition quad_uv_cmd (data : bytes) (st : cmd_state) (mesh_id : Z)
           (uv_off size : Z) : result cmd_state :=
  let p := st_p st in
  a <- _read_u16 data (p + 2) ;;
  b <- _read_u16 data (p + 4) ;;
  c <- _read_u16 data (p + 6) ;;
  d <- _read_u16 data (p + 8) ;;
  let '(i0_0, i1_0, i2_0) := (c, b, a) in
  let '(i0_1, i1_1, i2_1) := (d, c, a) in
  uC <- uv_byte data (p + uv_off) ;;
  vC <- uv_byte data (p + uv_off + 1) ;;
  uB <- uv_byte data (p + uv_off + 2) ;;
  vB <- uv_byte data (p + uv_off + 3) ;;
  uA <- uv_byte data (p + uv_off + 4) ;;
  vA <- uv_byte data (p + uv_off + 5) ;;
  uD <- uv_byte data (p + uv_off + 6) ;;
  vD <- uv_byte data (p + uv_off + 7) ;;
  Ok (mk_state (p + size)
        ((st_tris st ++ [(i0_0, i1_0, i2_0)]) ++ [(i0_1, i1_1, i2_1)])
        ((st_uvs_per_tri st ++ [[(uA, vA); (uB, vB); (uC, vC)]])
           ++ [[(uD, vD); (uA, vA); (uC, vC)]])
        ((st_mat_ids st ++ [mesh_id]) ++ [mesh_id])).

(** The body of the [for cmd_idx in range(poly_cmd_count)] loop. *)
Definition parse_cmd (data : bytes) (cmd_idx : Z) (st : cmd_state)
  : result cmd_state :=
  let p := st_p st in
  let n := len data in
  if n <=? p then Raise (ValueError (CommandBufferOverrun cmd_idx p))
  else
    op <- getitem data p ;;
    mesh_id <- getitem data (p + 1) ;;
    if op =? 0x10 then
      '(i0, i1, i2) <- unpack_HHH data (p + 2) ;;
      Ok (mk_state (p + 0x10)
            (st_tris st ++ [(i0, i1, i2)])
            (st_uvs_per_tri st ++ [zero_uvs])
            (st_mat_ids st ++ [mesh_id]))
    else if op =? 0x12 then
      a <- _read_u16 data (p + 2) ;;
      b <- _read_u16 data (p + 4) ;;
      c <- _read_u16 data (p + 6) ;;
      Ok (mk_state (p + 0x14)
            (st_tris st ++ [(c, b, a)])
            (st_uvs_per_tri st ++ [zero_uvs])
            (st_mat_ids st ++ [mesh_id]))
    else if op =? 0x13 then
      Ok (mk_state (p + 0x16)
            (st_tris st) (st_uvs_per_tri st) (st_mat_ids st))
    else if op =? 0x14 then tri_uv_cmd data st mesh_id 0x0A 0x14
    else if op =? 0x15 then quad_uv_cmd data st mesh_id 0x0C 0x18
    else if op =? 0x16 then tri_uv_cmd data st mesh_id 0x0E 0x18
    else if op =? 0x17 then quad_uv_cmd data st mesh_id 0x14 0x20
    else Raise (ValueError (UnknownOpcode op p)).

Definition init_state (cmd_offset : Z) : cmd_state :=
  mk_state cmd_offset [] [] [].

Definition _parse_poly_commands (data : bytes) (cmd_offset poly_cmd_count : Z)
  : result (list triangle * list (list uv) * list Z) :=
  st <- for_range (parse_cmd data) 0 (Z.to_nat poly_cmd_count)
                  (init_state cmd_offset) ;;
  Ok (st_tris st, st_uvs_per_tri st, st_mat_ids st).

(** The decoding block of [execute]: header, then vertices, then commands. *)
Definition decode (data : bytes)
  : result (list vertex * list triangle * list (list uv) * list Z) :=
  hdr <- _decode_header data ;;
  verts <- _read_vertices data (vert_offset hdr) (vertex_count hdr) ;;
  '(tris, uvs_per_tri, mat_ids) <-
    _parse_poly_commands data (cmd_offset hdr) (poly_cmd_count hdr) ;;
  Ok (verts, tris, uvs_per_tri, mat_ids).

(** ** Building test buffers *)

Definition byte_of_Z (z : Z) : byte :=
  match Byte.of_N (Z.to_N z) with
  | Some b => b
  | None => x00
  end.

Definition bytes_of (zs : list Z) : bytes := map byte_of_Z zs.

Definition zeros (k : nat) : list Z := repeat 0 k.

(** ** Reading the buffer at a known position

    What the little-endian fields of the format denote, written directly on
    the bytes of the buffer; the theorems below relate the decoder to them. *)

Definition u16_at (data : bytes) (off : Z) : Z :=
  byte_at data off + 256 * byte_at data (off + 1).

Definition u32_at (data : bytes) (off : Z) : Z :=
  byte_at data off + 256 * byte_at data (off + 1)
  + 65536 * byte_at data (off + 2) + 16777216 * byte_at data (off + 3).

Definition f32_at (data : bytes) (off : Z) : float :=
  float_of_bits32 (u32_at data off).

(** The UV pair stored in the two bytes at [off] and [off + 1]. *)
Definition uv_at (data : bytes) (off : Z) : uv :=
  ((float_of_int (byte_at data off) / 256)%float,
   (float_of_int (byte_at data (off + 1)) / 256)%float).

(** The raw vertex record number [i] of the array at [base], transformed. *)
Definition vertex_at (data : bytes) (base i : Z) : vertex :=
  ((- f32_at data (base + i * 12) / 10)%float,
   (- f32_at data (base + i * 12 + 4) / 10)%float,
   (f32_at data (base + i * 12 + 8) / 10)%float).

(** ** What a command stands for

    The geometry of the command stored at position [p], written directly on
    the bytes of the buffer: a face is a triangle with its three UV corners
    and its surface id. *)

Definition face : Type := (triangle * list uv * Z)%type.

Definition face_tri (f : face) : triangle := fst (fst f).
Definition face_uvs (f : face) : list uv := snd (fst f).
Definition face_mat (f : face) : Z := snd f.

(** The triangles of the command at [p]: the raw u16 indices of the record
    in the order the opcode asks for. *)
Definition raw_triangles (data : bytes) (p : Z) : list triangle :=
  let op := byte_at data p in
  let a := u16_at data (p + 2) in
  let b := u16_at data (p + 4) in
  let c := u16_at data (p + 6) in
  let d := u16_at data (p + 8) in
  if op =? 0x10 then [(a, b, c)]
  else if (op =? 0x12) || (op =? 0x14) || (op =? 0x16) then [(c, b, a)]
  else if (op =? 0x15) || (op =? 0x17) then [(c, b, a); (d, c, a)]
  else [].

(** The UV corners of the triangles of the command at [p]. *)
Definition raw_uvs (data : bytes) (p : Z) : list (list uv) :=
  let op := byte_at data p in
  let tri_uvs o := [uv_at data (p + o + 4); uv_at data (p + o + 2);
                    uv_at data (p + o)] in
  let quad_uvs o := [[uv_at data (p + o + 4); uv_at data (p + o + 2);
                      uv_at data (p + o)];
                     [uv_at data (p + o + 6); uv_at data (p + o + 4);
                      uv_at data (p + o)]] in
  if (op =? 0x10) || (op =? 0x12) then [zero_uvs]
  else if op =? 0x14 then [tri_uvs 0x0A]
  else if op =? 0x15 then quad_uvs 0x0C
  else if op =? 0x16 then [tri_uvs 0x0E]
  else if op =? 0x17 then quad_uvs 0x14
  else [].

Definition faces_at (data : bytes) (p : Z) : list face :=
  map (fun tu => (fst tu, snd tu, byte_at data (p + 1)))
      (combine (raw_triangles data p) (raw_uvs data p)).

(** A face that some command stored inside the buffer stands for. *)
Definition from_one_command (data : bytes) (f : face) : Prop :=
  exists p : Z, 0 <= p /\ p + 1 < len data /\ In f (faces_at data p).

(** The record length of an opcode of the table. *)
Definition cmd_size (op : Z) : Z :=
  if op =? 0x10 then 0x10
  else if op =? 0x12 then 0x14
  else if op =? 0x13 then 0x16
  else if op =? 0x14 then 0x14
  else if op =? 0x15 then 0x18
  else if op =? 0x16 then 0x18
  else if op =? 0x17 then 0x20
  else 0.

Definition known_opcode (op : Z) : bool :=
  (op =? 0x10) || (op =? 0x12) || (op =? 0x13) || (op =? 0x14)
  || (op =? 0x15) || (op =? 0x16) || (op =? 0x17).

(** ** Example buffers *)

(** A 48-byte header: [vertex_count = 0x0201], [poly_cmd_count = 0x0403],
    [mesh_count = 0x0605], then the four offsets. *)
Definition header_example : bytes :=
  bytes_of (zeros 20 ++ [1; 2; 3; 4; 0; 0; 5; 6] ++ zeros 4
            ++ [1; 0; 0; 0; 2; 0; 0; 0; 3; 0; 0; 0; 4; 0; 0; 1]).

(** One raw vertex record: the binary32 values 10.0, 20.0, 30.0. *)
Definition vertex_example : bytes :=
  bytes_of [0; 0; 0x20; 0x41; 0; 0; 0xA0; 0x41; 0; 0; 0xF0; 0x41].

(** One 0x14 command: surface id 7, indices (1, 2, 3), UV bytes 128, 64 at
    0x0A/0x0B, 0, 0 at 0x0C/0x0D and 255, 255 at 0x0E/0x0F. *)
Definition tri_cmd_example : bytes :=
  bytes_of [0x14; 7; 1; 0; 2; 0; 3; 0; 0; 0;
            128; 64; 0; 0; 255; 255; 0; 0; 0; 0].

(** One 0x15 command: surface id 9, indices (1, 2, 3, 4), UV byte pairs
    (16, 17), (32, 33), (48, 49), (64, 65) at 0x0C, 0x0E, 0x10, 0x12. *)
Definition quad_cmd_example : bytes :=
  bytes_of [0x15; 9; 1; 0; 2; 0; 3; 0; 4; 0; 0; 0;
            16; 17; 32; 33; 48; 49; 64; 65; 0; 0; 0; 0].

(** A stream cut short: a 0x13 command (record length 0x16) of which only
    the first two bytes are present. *)
Definition cut_marker_example : bytes := bytes_of [0x13; 0].

(** A stream that ends with the opcode byte 0xFF. *)
Definition last_byte_opcode_example : bytes := bytes_of [0xFF].

(** An unknown opcode followed by one more byte. *)
Definition unknown_opcode_example : bytes := bytes_of [0xFF; 3].

(** A whole file: a header with [vertex_count = 0], [poly_cmd_count = 1]
    and [cmd_offset = 0x30], then one 0x10 command with indices
    (5, 6, 7). *)
Definition unchecked_index_example : bytes :=
  bytes_of (zeros 20 ++ [0; 0; 1; 0] ++ zeros 20 ++ [0x30; 0; 0; 0]
            ++ [0x10; 0; 5; 0; 6; 0; 7; 0]).

(** ** Whole command streams *)

(** How many bytes of its record the interpreter reads for an opcode of the
    table: up to the last index or UV byte, the opcode and surface id for a
    0x13 record. *)
Definition cmd_fields (op : Z) : Z :=
  if op =? 0x10 then 8
  else if op =? 0x12 then 8
  else if op =? 0x13 then 2
  else if op =? 0x14 then 0x10
  else if op =? 0x15 then 0x14
  else if op =? 0x16 then 0x14
  else if op =? 0x17 then 0x1C
  else 2.

(** [k] commands follow each other from position [p] on, each with an
    opcode of the table and its fields inside the buffer. *)
Fixpoint stream_ok (data : bytes) (p : Z) (k : nat) : bool :=
  match k with
  | O => true
  | S k' =>
      let op := byte_at data p in
      (0 <=? p) && known_opcode op && (p + cmd_fields op <=? len data)
      && stream_ok data (p + cmd_size op) k'
  end.

(** The faces of the [k] commands that start at [p], in stream order. *)
Fixpoint stream_faces (data : bytes) (p : Z) (k : nat) : list face :=
  match k with
  | O => []
  | S k' =>
      faces_at data p ++ stream_faces data (p + cmd_size (byte_at data p)) k'
  end.

(** One plain 0x10 command (surface id 4, indices 5, 6, 7), one 0x12
    command (surface id 2, indices 5, 6, 7), one 0x13 marker cut after its
    second byte. *)
Definition plain_stream_example : bytes :=
  bytes_of ([0x10; 4; 5; 0; 6; 0; 7; 0] ++ zeros 8
            ++ [0x12; 2; 5; 0; 6; 0; 7; 0] ++ zeros 12
            ++ [0x13; 1]).

(** One 0x16 command: surface id 7, indices (1, 2, 3), UV byte pairs
    (128, 64), (0, 0), (255, 255) at 0x0E, 0x10, 0x12. *)
Definition tri_ext_example : bytes :=
  bytes_of [0x16; 7; 1; 0; 2; 0; 3; 0; 0; 0; 0; 0; 0; 0;
            128; 64; 0; 0; 255; 255; 0; 0; 0; 0].

(** One 0x17 command: surface id 9, indices (1, 2, 3, 4), UV byte pairs
    (16, 17), (32, 33), (48, 49), (64, 65) at 0x14, 0x16, 0x18, 0x1A. *)
Definition quad_ext_example : bytes :=
  bytes_of ([0x17; 9; 1; 0; 2; 0; 3; 0; 4; 0] ++ zeros 10
            ++ [16; 17; 32; 33; 48; 49; 64; 65; 0; 0; 0; 0]).

(** ** Shapes of decoded values *)

Definition is_u16 (z : Z) : Prop := 0 <= z < 65536.

Definition is_u32 (z : Z) : Prop := 0 <= z < 4294967296.

Definition is_byte (z : Z) : Prop := 0 <= z < 256.

(** A float that is some byte divided by 256. *)
Definition byte_fraction (f : float) : Prop :=
  exists b : byte, f = (float_of_int (byte_val b) / 256)%float.

(** [0 <= f < 1], with the comparisons of the floats. *)
Definition in_unit (f : float) : Prop :=
  (0 <=? f)%float = true /\ (f <? 1)%float = true.

Definition uv_shape (c : uv) : Prop :=
  byte_fraction (fst c) /\ byte_fraction (snd c).

Definition face_shape (f : face) : Prop :=
  (is_u16 (fst (fst (face_tri f))) /\ is_u16 (snd (fst (face_tri f)))
   /\ is_u16 (snd (face_tri f)))
  /\ length (face_uvs f) = 3%nat
  /\ Forall uv_shape (face_uvs f)
  /\ is_byte (face_mat f).

Definition tri_u16 (t : triangle) : Prop :=
  is_u16 (fst (fst t)) /\ is_u16 (snd (fst t)) /\ is_u16 (snd t).

(** Both coordinates of a UV corner are byte fractions inside [0, 1). *)
Definition uv_in_unit (c : uv) : Prop :=
  uv_shape c /\ in_unit (fst c) /\ in_unit (snd c).

(** Where the u16 index fields of a record end: after three indices for the
    triangle opcodes, after four for the quad opcodes. *)
Definition cmd_index_end (op : Z) : Z :=
  if (op =? 0x15) || (op =? 0x17) then 10 else 8.

(** A 0x14 command cut inside its UV bytes: the indices are present, the
    UV bytes stop after the first pair. *)
Definition cut_uv_example : bytes :=
  bytes_of [0x14; 7; 1; 0; 2; 0; 3; 0; 0; 0; 128; 64].

(** A whole file whose header asks for two vertices at offset 0x30 while
    the buffer stops after the header, and whose command offset is past the
    end as well. *)
Definition short_vertices_example : bytes :=
  bytes_of (zeros 20 ++ [2; 0; 1; 0] ++ zeros 8 ++ [0x30; 0; 0; 0]
            ++ zeros 8 ++ [0xFF; 0; 0; 0]).

(** ** The mesh builder

    The two loops of [_build_mesh_object] that compute: the UV loop and the
    material assignment.  The host collections they touch are lists: the UV
    layer data is a list of UV pairs, one per mesh loop. *)

(** [loop_data[i].uv = value]: an index past the end of the collection
    raises [IndexError]. *)
Definition set_uv (loop_data : list uv) (i : nat) (value : uv)
  : result (list uv) :=
  if (i <? length loop_data)%nat
  then Ok (firstn i loop_data ++ value :: skipn (S i) loop_data)
  else Raise IndexError.

(** The UV a corner is stored with: [(u, 1.0 - v)]. *)
Definition flip_v (c : uv) : uv := (fst c, (1 - snd c)%float).

(** [for u, v in tri_uvs: ...], on the pair (loop data, [loop_index]). *)
Fixpoint write_corners (tri_uvs : list uv) (st : list uv * nat)
  : result (list uv * nat) :=
  match tri_uvs with
  | [] => Ok st
  | (u, v) :: rest =>
      let '(loop_data, loop_index) := st in
      loop_data' <- set_uv loop_data loop_index (u, (1 - v)%float) ;;
      write_corners rest (loop_data', S loop_index)
  end.

(** [for tri_uvs in uvs_per_tri: ...] *)
Fixpoint write_uvs (uvs_per_tri : list (list uv)) (st : list uv * nat)
  : result (list uv * nat) :=
  match uvs_per_tri with
  | [] => Ok st
  | tri_uvs :: rest =>
      st' <- write_corners tri_uvs st ;; write_uvs rest st'
  end.

(** The UV part of [_build_mesh_object], from [loop_index = 0]. *)
Definition fill_uv_layer (loop_data : list uv) (uvs_per_tri : list (list uv))
  : result (list uv * nat) :=
  write_uvs uvs_per_tri (loop_data, 0%nat).

(** [set(mat_ids)]: the distinct values, in one of the orders a set may
    enumerate them. *)
Definition py_set (l : list Z) : list Z := nodup Z.eq_dec l.

Fixpoint insert_sorted (x : Z) (l : list Z) : list Z :=
  match l with
  | [] => [x]
  | y :: l' => if x <=? y then x :: l else y :: insert_sorted x l'
  end.

(** [sorted(...)] on integers: the same values in ascending order. *)
Fixpoint sorted (l : list Z) : list Z :=
  match l with
  | [] => []
  | x :: l' => insert_sorted x (sorted l')
  end.

(** The material [bpy.data.materials.new(name=f"Mesh_{mid:02d}")] makes,
    known by the mesh id it was made for. *)
Inductive material : Type :=
| Mesh_ (mid : Z).

(** The dictionary [mat_index_for_id], in insertion order. *)
Definition dict : Type := list (Z * Z).

(** [d[k] = v] *)
Fixpoint dict_set (d : dict) (k v : Z) : dict :=
  match d with
  | [] => [(k, v)]
  | (k', v') :: d' =>
      if k' =? k then (k, v) :: d' else (k', v') :: dict_set d' k v
  end.

(** [d.get(k, default)] *)
Fixpoint dict_get (d : dict) (k default : Z) : Z :=
  match d with
  | [] => default
  | (k', v) :: d' => if k' =? k then v else dict_get d' k default
  end.

(** [for mid in unique_ids: ...], on the pair ([mesh.materials],
    [mat_index_for_id]). *)
Fixpoint make_materials (unique_ids : list Z) (st : list material * dict)
  : list material * dict :=
  match unique_ids with
  | [] => st
  | mid :: rest =>
      let '(materials, mat_index_for_id) := st in
      let mat := Mesh_ mid in
      let materials := materials ++ [mat] in
      make_materials rest
        (materials,
         dict_set mat_index_for_id mid (Z.of_nat (length materials) - 1))
  end.

(** [for poly, mid in zip(mesh.polygons, mat_ids): poly.material_index =
    mat_index_for_id.get(mid, 0)], on the material indices of the
    polygons: [zip] stops at the shorter sequence and the polygons after it
    keep their index. *)
Fixpoint assign_polys (polygons mat_ids : list Z) (mat_index_for_id : dict)
  : list Z :=
  match polygons, mat_ids with
  | _ :: polygons', mid :: mat_ids' =>
      dict_get mat_index_for_id mid 0
      :: assign_polys polygons' mat_ids' mat_index_for_id
  | _, _ => polygons
  end.

(** The material part of [_build_mesh_object], from the materials and the
    polygon material indices the mesh has when it starts. *)
Definition assign_materials (create_materials : bool)
           (materials : list material) (polygons mat_ids : list Z)
  : list material * list Z :=
  if create_materials then
    let unique_ids := sorted (py_set mat_ids) in
    let '(materials', mat_index_for_id) :=
      make_materials unique_ids (materials, []) in
    (materials', assign_polys polygons mat_ids mat_index_for_id)
  else (materials, polygons).

(** Strictly ascending. *)
Definition ascending (l : list Z) : Prop := StronglySorted Z.lt l.

(** * Properties *)

(** ** The result monad *)

Lemma bind_inv {A B : Type} (r : result A) (k : A -> result B) (b : B) :
  bind r k = Ok b -> exists a, r = Ok a /\ k a = Ok b.
Proof.
  destruct r as [a | e]; simpl; intros H.
  - exists a. split; [reflexivity | exact H].
  - discriminate H.
Qed.

(** ** Slices of a byte list *)

Lemma slice_cons (l : list byte) : forall (n k : nat),
  (n < length l)%nat ->
  firstn (S k) (skipn n l) = nth n l x00 :: firstn k (skipn (S n) l).
Proof.
  induction l as [| b l IH]; intros n k Hn; simpl in Hn.
  - lia.
  - destruct n as [| n].
    + reflexivity.
    + change (skipn (S n) (b :: l)) with (skipn n l).
      change (skipn (S (S n)) (b :: l)) with (skipn (S n) l).
      change (nth (S n) (b :: l) x00) with (nth n l x00).
      apply IH. lia.
Qed.

Lemma slice_seq (l : list byte) : forall (k n : nat),
  (n + k <= length l)%nat ->
  firstn k (skipn n l) = map (fun i => nth i l x00) (seq n k).
Proof.
  induction k as [| k IH]; intros n Hn.
  - reflexivity.
  - rewrite slice_cons by lia.
    change (seq n (S k)) with (n :: seq (S n) k).
    rewrite map_cons. f_equal. apply IH. lia.
Qed.

Lemma len_nonneg (data : bytes) : 0 <= len data.
Proof. unfold len. lia. Qed.

Lemma getitem_in_range (data : bytes) (i : Z) :
  0 <= i < len data -> getitem data i = Ok (byte_at data i).
Proof.
  intros [H0 H1]. unfold getitem.
  destruct (Z.ltb_spec i 0); [lia |].
  destruct (Z.ltb_spec i 0); [lia |].
  destruct (Z.leb_spec (len data) i); [lia |].
  reflexivity.
Qed.

Lemma getitem_past_end (data : bytes) (i : Z) :
  len data <= i -> getitem data i = Raise IndexError.
Proof.
  intros H. pose proof (len_nonneg data). unfold getitem.
  destruct (Z.ltb_spec i 0); [lia |].
  destruct (Z.ltb_spec i 0); [lia |].
  destruct (Z.leb_spec (len data) i); [reflexivity | lia].
Qed.

Lemma unpack_from_in_range (size : Z) (data : bytes) (off : Z) :
  0 <= off -> 0 <= size -> off + size <= len data ->
  unpack_from size data off =
  Ok (map (fun i => nth i data x00) (seq (Z.to_nat off) (Z.to_nat size))).
Proof.
  intros H0 Hs H1. unfold unpack_from.
  destruct (Z.ltb_spec off 0); [lia |]. simpl.
  destruct (Z.ltb_spec (len data - off) size); [lia |].
  rewrite slice_seq; [reflexivity |]. unfold len in H1. lia.
Qed.

(** A read of [size > 0] bytes that would end past the buffer raises
    [struct.error], wherever it starts. *)
Lemma unpack_from_overrun (size : Z) (data : bytes) (off : Z) :
  0 < size -> len data < off + size ->
  unpack_from size data off = Raise struct_error.
Proof.
  intros Hs H1. pose proof (len_nonneg data). unfold unpack_from.
  destruct (Z.ltb_spec off 0); simpl.
  - destruct (Z.ltb_spec (off + len data) 0); [reflexivity |].
    destruct (Z.ltb_spec (len data - (off + len data)) size);
      [reflexivity | lia].
  - destruct (Z.ltb_spec (len data - off) size); [reflexivity | lia].
Qed.

Lemma read_u16_in_range (data : bytes) (off : Z) :
  0 <= off -> off + 2 <= len data ->
  _read_u16 data off = Ok (u16_at data off).
Proof.
  intros H0 H1. unfold _read_u16, unpack_H.
  rewrite unpack_from_in_range by lia.
  change (Z.to_nat 2) with 2%nat. cbn [bind map seq le_uint].
  unfold u16_at, byte_at.
  replace (Z.to_nat (off + 1)) with (S (Z.to_nat off)) by lia.
  f_equal. lia.
Qed.

Lemma read_u32_in_range (data : bytes) (off : Z) :
  0 <= off -> off + 4 <= len data ->
  _read_u32 data off = Ok (u32_at data off).
Proof.
  intros H0 H1. unfold _read_u32, unpack_I.
  rewrite unpack_from_in_range by lia.
  change (Z.to_nat 4) with 4%nat. cbn [bind map seq le_uint].
  unfold u32_at, byte_at.
  replace (Z.to_nat (off + 1)) with (S (Z.to_nat off)) by lia.
  replace (Z.to_nat (off + 2)) with (S (S (Z.to_nat off))) by lia.
  replace (Z.to_nat (off + 3)) with (S (S (S (Z.to_nat off)))) by lia.
  f_equal. lia.
Qed.

Lemma le_uint_2 (a b : byte) :
  le_uint [a; b] = byte_val a + 256 * byte_val b.
Proof. cbn [le_uint]. lia. Qed.

Lemma le_uint_4 (a b c d : byte) :
  le_uint [a; b; c; d] =
  byte_val a + 256 * byte_val b + 65536 * byte_val c + 16777216 * byte_val d.
Proof. cbn [le_uint]. lia. Qed.

Lemma unpack_fff_in_range (data : bytes) (off : Z) :
  0 <= off -> off + 12 <= len data ->
  unpack_fff data off =
  Ok (f32_at data off, f32_at data (off + 4), f32_at data (off + 8)).
Proof.
  intros H0 H1. unfold unpack_fff.
  rewrite unpack_from_in_range by lia.
  change (Z.to_nat 12) with 12%nat.
  cbn [bind map seq firstn skipn]. rewrite !le_uint_4.
  unfold f32_at, u32_at, byte_at.
  replace (Z.to_nat (off + 1)) with (1 + Z.to_nat off)%nat by lia.
  replace (Z.to_nat (off + 2)) with (2 + Z.to_nat off)%nat by lia.
  replace (Z.to_nat (off + 3)) with (3 + Z.to_nat off)%nat by lia.
  replace (Z.to_nat (off + 4)) with (4 + Z.to_nat off)%nat by lia.
  replace (Z.to_nat (off + 4 + 1)) with (5 + Z.to_nat off)%nat by lia.
  replace (Z.to_nat (off + 4 + 2)) with (6 + Z.to_nat off)%nat by lia.
  replace (Z.to_nat (off + 4 + 3)) with (7 + Z.to_nat off)%nat by lia.
  replace (Z.to_nat (off + 8)) with (8 + Z.to_nat off)%nat by lia.
  replace (Z.to_nat (off + 8 + 1)) with (9 + Z.to_nat off)%nat by lia.
  replace (Z.to_nat (off + 8 + 2)) with (10 + Z.to_nat off)%nat by lia.
  replace (Z.to_nat (off + 8 + 3)) with (11 + Z.to_nat off)%nat by lia.
  reflexivity.
Qed.

(** ** The header decoder *)

Lemma decode_header_short (data : bytes) :
  len data < 0x30 -> _decode_header data = Raise (ValueError FileTooSmall).
Proof.
  intros H. unfold _decode_header.
  destruct (Z.ltb_spec (len data) 0x30); [reflexivity | lia].
Qed.

Lemma decode_header_in_range (data : bytes) :
  0x30 <= len data ->
  _decode_header data =
  Ok {| vertex_count := u16_at data 0x14;
        poly_cmd_count := u16_at data 0x16;
        mesh_count := u16_at data 0x1A;
        vert_offset := u32_at data 0x20;
        plane_offset := u32_at data 0x24;
        normal_offset := u32_at data 0x28;
        cmd_offset := u32_at data 0x2C |}.
Proof.
  intros H. unfold _decode_header.
  destruct (Z.ltb_spec (len data) 0x30); [lia |].
  rewrite !read_u16_in_range by lia. cbn [bind].
  rewrite !read_u32_in_range by lia. reflexivity.
Qed.

(** C5: a buffer shorter than 0x30 bytes makes header decoding fail with the
    "file too small" error whatever it contains; on a buffer of at least
    0x30 bytes header decoding succeeds, and its fields are the
    little-endian u16 at 0x14, 0x16, 0x1A and u32 at 0x20, 0x24, 0x28,
    0x2C. *)
Theorem decode_header_spec (data : bytes) :
  (len data < 0x30 ->
   _decode_header data = Raise (ValueError FileTooSmall)) /\
  (0x30 <= len data ->
   _decode_header data =
   Ok {| vertex_count := u16_at data 0x14;
         poly_cmd_count := u16_at data 0x16;
         mesh_count := u16_at data 0x1A;
         vert_offset := u32_at data 0x20;
         plane_offset := u32_at data 0x24;
         normal_offset := u32_at data 0x28;
         cmd_offset := u32_at data 0x2C |}).
Proof.
  split.
  - apply decode_header_short.
  - apply decode_header_in_range.
Qed.

Lemma decode_header_spec_witness :
  _decode_header (bytes_of (zeros 47)) = Raise (ValueError FileTooSmall) /\
  _decode_header header_example =
  Ok {| vertex_count := 0x0201; poly_cmd_count := 0x0403;
        mesh_count := 0x0605; vert_offset := 1; plane_offset := 2;
        normal_offset := 3; cmd_offset := 0x01000004 |}.
Proof.
  split.
  - apply (proj1 (decode_header_spec (bytes_of (zeros 47)))).
    vm_compute. reflexivity.
  - exact (proj2 (decode_header_spec header_example)
                 ltac:(vm_compute; discriminate)).
Defined.

(** ** The vertex decoder *)

Lemma unpack_from_raises (size : Z) (data : bytes) (off : Z) (e : exn) :
  unpack_from size data off = Raise e -> e = struct_error.
Proof.
  unfold unpack_from.
  destruct ((off <? 0) && (off + len data <? 0)); [congruence |].
  destruct (len data - (if off <? 0 then off + len data else off) <? size);
    congruence.
Qed.

Lemma read_vertex_raises (data : bytes) (base i : Z) (acc : list vertex)
      (e : exn) :
  read_vertex data base i acc = Raise e -> e = struct_error.
Proof.
  unfold read_vertex, unpack_fff.
  destruct (unpack_from 12 data (base + i * 12)) as [bs | e'] eqn:E;
    cbn [bind]; intros H.
  - discriminate H.
  - injection H as <-. exact (unpack_from_raises _ _ _ _ E).
Qed.

Lemma read_vertex_in_range (data : bytes) (base i : Z) (acc : list vertex) :
  0 <= base + i * 12 -> base + i * 12 + 12 <= len data ->
  read_vertex data base i acc = Ok (acc ++ [vertex_at data base i]).
Proof.
  intros H0 H1. unfold read_vertex.
  rewrite unpack_fff_in_range by lia. reflexivity.
Qed.

Lemma read_vertex_overrun (data : bytes) (base i : Z) (acc : list vertex) :
  len data < base + i * 12 + 12 ->
  read_vertex data base i acc = Raise struct_error.
Proof.
  intros H. unfold read_vertex, unpack_fff.
  rewrite unpack_from_overrun by lia. reflexivity.
Qed.

Lemma read_vertices_loop_in_range (data : bytes) (base : Z) :
  forall (k s : nat) (acc : list vertex),
  0 <= base ->
  base + (Z.of_nat s + Z.of_nat k) * 12 <= len data ->
  for_range (read_vertex data base) (Z.of_nat s) k acc =
  Ok (acc ++ map (fun i => vertex_at data base (Z.of_nat i)) (seq s k)).
Proof.
  induction k as [| k IH]; intros s acc Hb Hlen.
  - cbn [for_range seq map]. now rewrite app_nil_r.
  - cbn [for_range seq map].
    rewrite read_vertex_in_range by lia. cbn [bind].
    replace (Z.of_nat s + 1) with (Z.of_nat (S s)) by lia.
    rewrite IH by lia. now rewrite <- app_assoc.
Qed.

Lemma read_vertices_loop_overrun (data : bytes) (base : Z) :
  forall (k : nat) (s : Z) (acc : list vertex) (j : Z),
  s <= j < s + Z.of_nat k ->
  len data < base + j * 12 + 12 ->
  for_range (read_vertex data base) s k acc = Raise struct_error.
Proof.
  induction k as [| k IH]; intros s acc j Hj Hlen.
  - lia.
  - cbn [for_range].
    destruct (read_vertex data base s acc) as [acc' | e] eqn:E; cbn [bind].
    + destruct (Z.eq_dec j s) as [-> | Hne].
      * rewrite read_vertex_overrun in E by lia. discriminate E.
      * apply (IH (s + 1) acc' j); lia.
    + now rewrite (read_vertex_raises _ _ _ _ _ E).
Qed.

(** C6: when the vertex array lies inside the buffer, the vertex decoder
    returns, in input order, for every [i] in [0 .. vertex_count) the triple
    [(-x/10, -y/10, z/10)] of the three little-endian binary32 values found
    at [vert_offset + i*12]; the raw record (10.0, 20.0, 30.0) gives
    (-1.0, -2.0, 3.0). *)
Theorem read_vertices_spec (data : bytes) (base count : Z) :
  (0 <= base -> base + count * 12 <= len data ->
   _read_vertices data base count =
   Ok (map (fun i => vertex_at data base (Z.of_nat i))
           (seq 0 (Z.to_nat count)))) /\
  _read_vertices vertex_example 0 1 = Ok [(-1, -2, 3)%float].
Proof.
  split; [| reflexivity].
  intros Hb Hlen. unfold _read_vertices.
  destruct (Z.le_gt_cases count 0) as [Hc | Hc].
  - replace (Z.to_nat count) with 0%nat by lia. reflexivity.
  - exact (read_vertices_loop_in_range data base (Z.to_nat count) 0 []
             Hb ltac:(lia)).
Qed.

Lemma read_vertices_spec_witness :
  _read_vertices vertex_example 0 1 =
  Ok [vertex_at vertex_example 0 0] /\
  _read_vertices vertex_example 0 1 = Ok [(-1, -2, 3)%float].
Proof.
  split.
  - exact (proj1 (read_vertices_spec vertex_example 0 1)
                 ltac:(lia) ltac:(vm_compute; discriminate)).
  - exact (proj2 (read_vertices_spec vertex_example 0 1)).
Defined.

(** C8: whenever some vertex read at [vert_offset + i*12], [i] below
    [vertex_count], would end past the buffer, the vertex decoder fails with
    the bounds error of the read ([struct.error]) and returns no vertex
    list, whatever offset and count it was handed. *)
Theorem read_vertices_overrun (data : bytes) (base count i : Z) :
  0 <= i < count ->
  len data < base + i * 12 + 12 ->
  _read_vertices data base count = Raise struct_error.
Proof.
  intros Hi Hlen. unfold _read_vertices.
  apply (read_vertices_loop_overrun data base _ 0 [] i); lia.
Qed.

Lemma read_vertices_overrun_witness :
  _read_vertices vertex_example 4 1 = Raise struct_error.
Proof.
  apply (read_vertices_overrun vertex_example 4 1 0).
  - lia.
  - vm_compute. reflexivity.
Defined.

(** C10: with a count of zero both decoders succeed with empty output for
    every offset, inside the buffer or not: no vertex and no command is
    read, so no bounds error can arise. *)
Theorem zero_count_is_empty (data : bytes) (off : Z) :
  _read_vertices data off 0 = Ok [] /\
  _parse_poly_commands data off 0 = Ok ([], [], []).
Proof. split; reflexivity. Qed.

(** ** Reads that succeeded *)

Lemma getitem_Ok_inv (data : bytes) (i v : Z) :
  0 <= i -> getitem data i = Ok v -> i < len data /\ v = byte_at data i.
Proof.
  intros H0 H.
  destruct (Z.lt_ge_cases i (len data)) as [Hlt | Hge].
  - rewrite getitem_in_range in H by lia. injection H as <-. now split.
  - rewrite getitem_past_end in H by lia. discriminate H.
Qed.

Lemma read_u16_Ok_inv (data : bytes) (off v : Z) :
  0 <= off -> _read_u16 data off = Ok v ->
  off + 2 <= len data /\ v = u16_at data off.
Proof.
  intros H0 H.
  destruct (Z.le_gt_cases (off + 2) (len data)) as [Hle | Hgt].
  - rewrite read_u16_in_range in H by lia. injection H as <-. now split.
  - unfold _read_u16, unpack_H in H.
    rewrite unpack_from_overrun in H by lia. discriminate H.
Qed.

Lemma unpack_HHH_in_range (data : bytes) (off : Z) :
  0 <= off -> off + 6 <= len data ->
  unpack_HHH data off =
  Ok (u16_at data off, u16_at data (off + 2), u16_at data (off + 4)).
Proof.
  intros H0 H1. unfold unpack_HHH.
  rewrite unpack_from_in_range by lia.
  change (Z.to_nat 6) with 6%nat.
  cbn [bind map seq firstn skipn]. rewrite !le_uint_2.
  unfold u16_at, byte_at.
  replace (Z.to_nat (off + 1)) with (1 + Z.to_nat off)%nat by lia.
  replace (Z.to_nat (off + 2)) with (2 + Z.to_nat off)%nat by lia.
  replace (Z.to_nat (off + 2 + 1)) with (3 + Z.to_nat off)%nat by lia.
  replace (Z.to_nat (off + 4)) with (4 + Z.to_nat off)%nat by lia.
  replace (Z.to_nat (off + 4 + 1)) with (5 + Z.to_nat off)%nat by lia.
  reflexivity.
Qed.

Lemma unpack_HHH_Ok_inv (data : bytes) (off : Z) (v : Z * Z * Z) :
  0 <= off -> unpack_HHH data off = Ok v ->
  off + 6 <= len data /\
  v = (u16_at data off, u16_at data (off + 2), u16_at data (off + 4)).
Proof.
  intros H0 H.
  destruct (Z.le_gt_cases (off + 6) (len data)) as [Hle | Hgt].
  - rewrite unpack_HHH_in_range in H by lia. injection H as <-. now split.
  - unfold unpack_HHH in H.
    rewrite unpack_from_overrun in H by lia. discriminate H.
Qed.

Lemma uv_byte_in_range (data : bytes) (off : Z) :
  0 <= off < len data ->
  uv_byte data off = Ok (float_of_int (byte_at data off) / 256)%float.
Proof.
  intros H. unfold uv_byte. now rewrite getitem_in_range.
Qed.

Lemma uv_byte_Ok_inv (data : bytes) (off : Z) (f : float) :
  0 <= off -> uv_byte data off = Ok f ->
  off < len data /\ f = (float_of_int (byte_at data off) / 256)%float.
Proof.
  intros H0 H.
  destruct (Z.lt_ge_cases off (len data)) as [Hlt | Hge].
  - rewrite uv_byte_in_range in H by lia. injection H as <-. now split.
  - unfold uv_byte in H. rewrite getitem_past_end in H by lia.
    discriminate H.
Qed.

(** ** One command *)

(** Splits a successful chain of reads into its steps. *)
Ltac split_binds H :=
  repeat match type of H with
         | bind ?r _ = Ok _ =>
             let E := fresh "E" in
             destruct r eqn:E; cbn [bind] in H; [| discriminate H]
         end.

Lemma tri_uv_cmd_Ok (data : bytes) (st st' : cmd_state)
      (mesh_id uv_off size : Z) :
  tri_uv_cmd data st mesh_id uv_off size = Ok st' ->
  exists (t : triangle) (u : list uv),
    st' = mk_state (st_p st + size) (st_tris st ++ [t])
                   (st_uvs_per_tri st ++ [u]) (st_mat_ids st ++ [mesh_id]) /\
    (0 <= st_p st -> 0 <= uv_off ->
     let p := st_p st in
     t = (u16_at data (p + 6), u16_at data (p + 4), u16_at data (p + 2)) /\
     u = [uv_at data (p + uv_off + 4); uv_at data (p + uv_off + 2);
          uv_at data (p + uv_off)]).
Proof.
  unfold tri_uv_cmd. intros H. split_binds H. injection H as <-.
  eexists. eexists. split; [reflexivity |].
  intros Hp Ho.
  apply read_u16_Ok_inv in E; [| lia].
  apply read_u16_Ok_inv in E0; [| lia].
  apply read_u16_Ok_inv in E1; [| lia].
  apply uv_byte_Ok_inv in E2; [| lia].
  apply uv_byte_Ok_inv in E3; [| lia].
  apply uv_byte_Ok_inv in E4; [| lia].
  apply uv_byte_Ok_inv in E5; [| lia].
  apply uv_byte_Ok_inv in E6; [| lia].
  apply uv_byte_Ok_inv in E7; [| lia].
  destruct E as [_ ->], E0 as [_ ->], E1 as [_ ->], E2 as [_ ->],
    E3 as [_ ->], E4 as [_ ->], E5 as [_ ->], E6 as [_ ->], E7 as [_ ->].
  unfold uv_at.
  replace (st_p st + uv_off + 4 + 1) with (st_p st + uv_off + 5) by lia.
  replace (st_p st + uv_off + 2 + 1) with (st_p st + uv_off + 3) by lia.
  split; reflexivity.
Qed.

Lemma quad_uv_cmd_Ok (data : bytes) (st st' : cmd_state)
      (mesh_id uv_off size : Z) :
  quad_uv_cmd data st mesh_id uv_off size = Ok st' ->
  exists (t0 t1 : triangle) (u0 u1 : list uv),
    st' = mk_state (st_p st + size) (st_tris st ++ [t0; t1])
                   (st_uvs_per_tri st ++ [u0; u1])
                   (st_mat_ids st ++ [mesh_id; mesh_id]) /\
    (0 <= st_p st -> 0 <= uv_off ->
     let p := st_p st in
     t0 = (u16_at data (p + 6), u16_at data (p + 4), u16_at data (p + 2)) /\
     t1 = (u16_at data (p + 8), u16_at data (p + 6), u16_at data (p + 2)) /\
     u0 = [uv_at data (p + uv_off + 4); uv_at data (p + uv_off + 2);
           uv_at data (p + uv_off)] /\
     u1 = [uv_at data (p + uv_off + 6); uv_at data (p + uv_off + 4);
           uv_at data (p + uv_off)]).
Proof.
  unfold quad_uv_cmd. intros H. split_binds H. injection H as <-.
  do 4 eexists. split; [now rewrite <- !app_assoc |].
  intros Hp Ho.
  apply read_u16_Ok_inv in E; [| lia].
  apply read_u16_Ok_inv in E0; [| lia].
  apply read_u16_Ok_inv in E1; [| lia].
  apply read_u16_Ok_inv in E2; [| lia].
  apply uv_byte_Ok_inv in E3; [| lia].
  apply uv_byte_Ok_inv in E4; [| lia].
  apply uv_byte_Ok_inv in E5; [| lia].
  apply uv_byte_Ok_inv in E6; [| lia].
  apply uv_byte_Ok_inv in E7; [| lia].
  apply uv_byte_Ok_inv in E8; [| lia].
  apply uv_byte_Ok_inv in E9; [| lia].
  apply uv_byte_Ok_inv in E10; [| lia].
  destruct E as [_ ->], E0 as [_ ->], E1 as [_ ->], E2 as [_ ->],
    E3 as [_ ->], E4 as [_ ->], E5 as [_ ->], E6 as [_ ->], E7 as [_ ->],
    E8 as [_ ->], E9 as [_ ->], E10 as [_ ->].
  unfold uv_at.
  replace (st_p st + uv_off + 6 + 1) with (st_p st + uv_off + 7) by lia.
  replace (st_p st + uv_off + 4 + 1) with (st_p st + uv_off + 5) by lia.
  replace (st_p st + uv_off + 2 + 1) with (st_p st + uv_off + 3) by lia.
  repeat split; reflexivity.
Qed.

(** What one successful iteration of the command loop did: it appended the
    faces of one command to the three lists, and, when the cursor is a
    position of the buffer, these are the faces of the command stored
    there and the cursor moved by the record length of its opcode. *)
Lemma parse_cmd_Ok (data : bytes) (idx : Z) (st st' : cmd_state) :
  parse_cmd data idx st = Ok st' ->
  st_p st < len data /\
  exists fs : list face,
    st_tris st' = st_tris st ++ map face_tri fs /\
    st_uvs_per_tri st' = st_uvs_per_tri st ++ map face_uvs fs /\
    st_mat_ids st' = st_mat_ids st ++ map face_mat fs /\
    (0 <= st_p st ->
     st_p st + 1 < len data /\
     fs = faces_at data (st_p st) /\
     known_opcode (byte_at data (st_p st)) = true /\
     st_p st' = st_p st + cmd_size (byte_at data (st_p st))).
Proof.
  unfold parse_cmd. intros H.
  destruct (Z.leb_spec (len data) (st_p st)) as [Hge | Hlt];
    [discriminate H |].
  split; [exact Hlt |].
  split_binds H. rename a into op, a0 into mesh_id.
  assert (Hpos : 0 <= st_p st ->
                 st_p st + 1 < len data /\ op = byte_at data (st_p st)
                 /\ mesh_id = byte_at data (st_p st + 1)).
  { intros Hp.
    apply getitem_Ok_inv in E; [| lia].
    apply getitem_Ok_inv in E0; [| lia].
    destruct E as [_ ->], E0 as [? ->]. repeat split; lia. }
  destruct (Z.eqb_spec op 0x10) as [Hop | _].
  { split_binds H. destruct a as [[i0 i1] i2]. injection H as <-.
    exists [((i0, i1, i2), zero_uvs, mesh_id)].
    cbn [st_tris st_uvs_per_tri st_mat_ids st_p map face_tri face_uvs
         face_mat fst snd].
    repeat (split; [reflexivity |]). intros Hp.
    destruct (Hpos Hp) as (Hin & Hb & ->). split; [exact Hin |].
    apply unpack_HHH_Ok_inv in E1; [| lia]. destruct E1 as [_ E1].
    injection E1 as -> -> ->.
    unfold faces_at, raw_triangles, raw_uvs, known_opcode, cmd_size.
    rewrite <- Hb, Hop.
    replace (st_p st + 2 + 2) with (st_p st + 4) by lia.
    replace (st_p st + 2 + 4) with (st_p st + 6) by lia.
    repeat split; reflexivity. }
  destruct (Z.eqb_spec op 0x12) as [Hop | _].
  { split_binds H. injection H as <-.
    exists [((a1, a0, a), zero_uvs, mesh_id)].
    cbn [st_tris st_uvs_per_tri st_mat_ids st_p map face_tri face_uvs
         face_mat fst snd].
    repeat (split; [reflexivity |]). intros Hp.
    destruct (Hpos Hp) as (Hin & Hb & ->). split; [exact Hin |].
    apply read_u16_Ok_inv in E1; [| lia].
    apply read_u16_Ok_inv in E2; [| lia].
    apply read_u16_Ok_inv in E3; [| lia].
    destruct E1 as [_ ->], E2 as [_ ->], E3 as [_ ->].
    unfold faces_at, raw_triangles, raw_uvs, known_opcode, cmd_size.
    rewrite <- Hb, Hop.
    repeat split; reflexivity. }
  destruct (Z.eqb_spec op 0x13) as [Hop | _].
  { injection H as <-. exists [].
    cbn [st_tris st_uvs_per_tri st_mat_ids st_p map].
    rewrite !app_nil_r.
    repeat (split; [reflexivity |]). intros Hp.
    destruct (Hpos Hp) as (Hin & Hb & ->). split; [exact Hin |].
    unfold faces_at, raw_triangles, raw_uvs, known_opcode, cmd_size.
    rewrite <- Hb, Hop.
    repeat split; reflexivity. }
  destruct (Z.eqb_spec op 0x14) as [Hop | _].
  { apply tri_uv_cmd_Ok in H. destruct H as (t & u & -> & Hraw).
    exists [(t, u, mesh_id)].
    cbn [st_tris st_uvs_per_tri st_mat_ids st_p map face_tri face_uvs
         face_mat fst snd].
    repeat (split; [reflexivity |]). intros Hp.
    destruct (Hpos Hp) as (Hin & Hb & ->). split; [exact Hin |].
    destruct (Hraw Hp ltac:(lia)) as [-> ->].
    unfold faces_at, raw_triangles, raw_uvs, known_opcode, cmd_size.
    rewrite <- Hb, Hop.
    repeat split; reflexivity. }
  destruct (Z.eqb_spec op 0x15) as [Hop | _].
  { apply quad_uv_cmd_Ok in H.
    destruct H as (t0 & t1 & u0 & u1 & -> & Hraw).
    exists [(t0, u0, mesh_id); (t1, u1, mesh_id)].
    cbn [st_tris st_uvs_per_tri st_mat_ids st_p map face_tri face_uvs
         face_mat fst snd].
    repeat (split; [reflexivity |]). intros Hp.
    destruct (Hpos Hp) as (Hin & Hb & ->). split; [exact Hin |].
    destruct (Hraw Hp ltac:(lia)) as (-> & -> & -> & ->).
    unfold faces_at, raw_triangles, raw_uvs, known_opcode, cmd_size.
    rewrite <- Hb, Hop.
    repeat split; reflexivity. }
  destruct (Z.eqb_spec op 0x16) as [Hop | _].
  { apply tri_uv_cmd_Ok in H. destruct H as (t & u & -> & Hraw).
    exists [(t, u, mesh_id)].
    cbn [st_tris st_uvs_per_tri st_mat_ids st_p map face_tri face_uvs
         face_mat fst snd].
    repeat (split; [reflexivity |]). intros Hp.
    destruct (Hpos Hp) as (Hin & Hb & ->). split; [exact Hin |].
    destruct (Hraw Hp ltac:(lia)) as [-> ->].
    unfold faces_at, raw_triangles, raw_uvs, known_opcode, cmd_size.
    rewrite <- Hb, Hop.
    repeat split; reflexivity. }
  destruct (Z.eqb_spec op 0x17) as [Hop | _].
  { apply quad_uv_cmd_Ok in H.
    destruct H as (t0 & t1 & u0 & u1 & -> & Hraw).
    exists [(t0, u0, mesh_id); (t1, u1, mesh_id)].
    cbn [st_tris st_uvs_per_tri st_mat_ids st_p map face_tri face_uvs
         face_mat fst snd].
    repeat (split; [reflexivity |]). intros Hp.
    destruct (Hpos Hp) as (Hin & Hb & ->). split; [exact Hin |].
    destruct (Hraw Hp ltac:(lia)) as (-> & -> & -> & ->).
    unfold faces_at, raw_triangles, raw_uvs, known_opcode, cmd_size.
    rewrite <- Hb, Hop.
    repeat split; reflexivity. }
  discriminate H.
Qed.

(** ** The command loop *)

Lemma for_range_app {St : Type} (body : Z -> St -> result St) :
  forall (k m : nat) (start : Z) (s : St),
  for_range body start (k + m) s =
  bind (for_range body start k s)
       (for_range body (start + Z.of_nat k) m).
Proof.
  induction k as [| k IH]; intros m start s.
  - cbn [for_range Nat.add bind]. now rewrite Z.add_0_r.
  - cbn [for_range Nat.add].
    destruct (body start s) as [s' | e]; cbn [bind]; [| reflexivity].
    rewrite IH. f_equal. f_equal. lia.
Qed.

Lemma cmd_size_known (op : Z) : known_opcode op = true -> 0 < cmd_size op.
Proof.
  unfold known_opcode, cmd_size. intros H.
  destruct (op =? 0x10); [lia |].
  destruct (op =? 0x12); [lia |].
  destruct (op =? 0x13); [lia |].
  destruct (op =? 0x14); [lia |].
  destruct (op =? 0x15); [lia |].
  destruct (op =? 0x16); [lia |].
  destruct (op =? 0x17); [lia | discriminate H].
Qed.

Lemma parse_loop_Ok (data : bytes) :
  forall (k : nat) (idx : Z) (st st' : cmd_state),
  for_range (parse_cmd data) idx k st = Ok st' ->
  exists fs : list face,
    st_tris st' = st_tris st ++ map face_tri fs /\
    st_uvs_per_tri st' = st_uvs_per_tri st ++ map face_uvs fs /\
    st_mat_ids st' = st_mat_ids st ++ map face_mat fs /\
    (0 <= st_p st ->
     st_p st <= st_p st' /\ Forall (from_one_command data) fs).
Proof.
  induction k as [| k IH]; intros idx st st' H.
  - injection H as <-. exists []. cbn [map]. rewrite !app_nil_r.
    do 3 (split; [reflexivity |]). intros _. split; [lia | constructor].
  - cbn [for_range] in H. apply bind_inv in H.
    destruct H as (st1 & H1 & H2).
    apply parse_cmd_Ok in H1.
    destruct H1 as (_ & fs1 & Ht1 & Hu1 & Hm1 & Hp1).
    apply IH in H2. destruct H2 as (fs2 & Ht2 & Hu2 & Hm2 & Hp2).
    exists (fs1 ++ fs2). rewrite !map_app, !app_assoc.
    rewrite Ht2, Hu2, Hm2, Ht1, Hu1, Hm1.
    do 3 (split; [reflexivity |]). intros Hp.
    destruct (Hp1 Hp) as (Hin & -> & Hk & Hstep).
    pose proof (cmd_size_known _ Hk) as Hsz.
    destruct (Hp2 ltac:(lia)) as (Hle & Hall).
    split; [lia |].
    apply Forall_app. split; [| exact Hall].
    apply Forall_forall. intros f Hf. exists (st_p st). now repeat split.
Qed.

Lemma parse_poly_commands_Ok (data : bytes) (off cnt : Z)
      (tris : list triangle) (uvs : list (list uv)) (mats : list Z) :
  _parse_poly_commands data off cnt = Ok (tris, uvs, mats) ->
  exists fs : list face,
    tris = map face_tri fs /\ uvs = map face_uvs fs /\
    mats = map face_mat fs /\
    (0 <= off -> Forall (from_one_command data) fs).
Proof.
  unfold _parse_poly_commands. intros H. apply bind_inv in H.
  destruct H as (st & Hloop & Hret). injection Hret as <- <- <-.
  apply parse_loop_Ok in Hloop.
  destruct Hloop as (fs & Ht & Hu & Hm & Hp). exists fs.
  cbn [init_state st_tris st_uvs_per_tri st_mat_ids st_p app] in *.
  do 3 (split; [assumption |]). intros Hoff. now apply Hp.
Qed.

(** C3: on success the three returned sequences have the same length; every
    command appends the same faces to all three lists; and, for a stream
    that starts at a position of the buffer, the entries at one index of
    the three sequences are the triangle, the UV corners and the surface id
    of one face of one command. *)
Theorem parallel_sequences (data : bytes) :
  (forall (off cnt : Z) tris uvs mats,
     _parse_poly_commands data off cnt = Ok (tris, uvs, mats) ->
     length tris = length uvs /\ length uvs = length mats) /\
  (forall (idx : Z) (st st' : cmd_state),
     parse_cmd data idx st = Ok st' ->
     exists fs : list face,
       st_tris st' = st_tris st ++ map face_tri fs /\
       st_uvs_per_tri st' = st_uvs_per_tri st ++ map face_uvs fs /\
       st_mat_ids st' = st_mat_ids st ++ map face_mat fs) /\
  (forall (off cnt : Z) tris uvs mats,
     0 <= off ->
     _parse_poly_commands data off cnt = Ok (tris, uvs, mats) ->
     exists fs : list face,
       tris = map face_tri fs /\ uvs = map face_uvs fs /\
       mats = map face_mat fs /\ Forall (from_one_command data) fs).
Proof.
  split; [| split].
  - intros off cnt tris uvs mats H.
    apply parse_poly_commands_Ok in H.
    destruct H as (fs & -> & -> & -> & _). now rewrite !length_map.
  - intros idx st st' H. apply parse_cmd_Ok in H.
    destruct H as (_ & fs & Ht & Hu & Hm & _). now exists fs.
  - intros off cnt tris uvs mats Hoff H.
    apply parse_poly_commands_Ok in H.
    destruct H as (fs & Ht & Hu & Hm & Hp). exists fs. auto.
Qed.

Lemma parallel_sequences_witness :
  length [(3, 2, 1)] =
  length [[(255 / 256, 255 / 256); (0, 0); (0.5, 0.25)]%float] /\
  length [[(255 / 256, 255 / 256); (0, 0); (0.5, 0.25)]%float] = length [7].
Proof.
  exact (proj1 (parallel_sequences tri_cmd_example) 0 1
               [(3, 2, 1)]
               [[(255 / 256, 255 / 256); (0, 0); (0.5, 0.25)]%float]
               [7] ltac:(vm_compute; reflexivity)).
Defined.

(** ** Textured commands that lie inside the buffer *)

Lemma tri_uv_cmd_in_range (data : bytes) (st : cmd_state)
      (mesh_id uv_off size : Z) :
  0 <= st_p st -> 2 <= uv_off -> st_p st + uv_off + 6 <= len data ->
  tri_uv_cmd data st mesh_id uv_off size =
  Ok (mk_state (st_p st + size)
        (st_tris st ++ [(u16_at data (st_p st + 6), u16_at data (st_p st + 4),
                         u16_at data (st_p st + 2))])
        (st_uvs_per_tri st ++ [[uv_at data (st_p st + uv_off + 4);
                                uv_at data (st_p st + uv_off + 2);
                                uv_at data (st_p st + uv_off)]])
        (st_mat_ids st ++ [mesh_id])).
Proof.
  intros Hp Ho Hlen. unfold tri_uv_cmd.
  rewrite !read_u16_in_range by lia. cbn [bind].
  rewrite !uv_byte_in_range by lia. cbn [bind].
  unfold uv_at.
  replace (st_p st + uv_off + 4 + 1) with (st_p st + uv_off + 5) by lia.
  replace (st_p st + uv_off + 2 + 1) with (st_p st + uv_off + 3) by lia.
  reflexivity.
Qed.

Lemma quad_uv_cmd_in_range (data : bytes) (st : cmd_state)
      (mesh_id uv_off size : Z) :
  0 <= st_p st -> 2 <= uv_off -> st_p st + uv_off + 8 <= len data ->
  quad_uv_cmd data st mesh_id uv_off size =
  Ok (mk_state (st_p st + size)
        (st_tris st ++ [(u16_at data (st_p st + 6), u16_at data (st_p st + 4),
                         u16_at data (st_p st + 2));
                        (u16_at data (st_p st + 8), u16_at data (st_p st + 6),
                         u16_at data (st_p st + 2))])
        (st_uvs_per_tri st ++ [[uv_at data (st_p st + uv_off + 4);
                                uv_at data (st_p st + uv_off + 2);
                                uv_at data (st_p st + uv_off)];
                               [uv_at data (st_p st + uv_off + 6);
                                uv_at data (st_p st + uv_off + 4);
                                uv_at data (st_p st + uv_off)]])
        (st_mat_ids st ++ [mesh_id; mesh_id])).
Proof.
  intros Hp Ho Hlen. unfold quad_uv_cmd.
  rewrite !read_u16_in_range by lia. cbn [bind].
  rewrite !uv_byte_in_range by lia. cbn [bind].
  unfold uv_at. rewrite <- !app_assoc. cbn [app].
  replace (st_p st + uv_off + 6 + 1) with (st_p st + uv_off + 7) by lia.
  replace (st_p st + uv_off + 4 + 1) with (st_p st + uv_off + 5) by lia.
  replace (st_p st + uv_off + 2 + 1) with (st_p st + uv_off + 3) by lia.
  reflexivity.
Qed.

(** The first steps of an iteration whose cursor and the byte after it lie
    inside the buffer: the bounds check passes and both bytes are read. *)
Lemma parse_cmd_dispatch (data : bytes) (idx : Z) (st : cmd_state) :
  0 <= st_p st -> st_p st + 1 < len data ->
  parse_cmd data idx st =
  let p := st_p st in
  let op := byte_at data p in
  let mesh_id := byte_at data (p + 1) in
  if op =? 0x10 then
    '(i0, i1, i2) <- unpack_HHH data (p + 2) ;;
    Ok (mk_state (p + 0x10)
          (st_tris st ++ [(i0, i1, i2)])
          (st_uvs_per_tri st ++ [zero_uvs])
          (st_mat_ids st ++ [mesh_id]))
  else if op =? 0x12 then
    a <- _read_u16 data (p + 2) ;;
    b <- _read_u16 data (p + 4) ;;
    c <- _read_u16 data (p + 6) ;;
    Ok (mk_state (p + 0x14)
          (st_tris st ++ [(c, b, a)])
          (st_uvs_per_tri st ++ [zero_uvs])
          (st_mat_ids st ++ [mesh_id]))
  else if op =? 0x13 then
    Ok (mk_state (p + 0x16)
          (st_tris st) (st_uvs_per_tri st) (st_mat_ids st))
  else if op =? 0x14 then tri_uv_cmd data st mesh_id 0x0A 0x14
  else if op =? 0x15 then quad_uv_cmd data st mesh_id 0x0C 0x18
  else if op =? 0x16 then tri_uv_cmd data st mesh_id 0x0E 0x18
  else if op =? 0x17 then quad_uv_cmd data st mesh_id 0x14 0x20
  else Raise (ValueError (UnknownOpcode op p)).
Proof.
  intros Hp Hlen. unfold parse_cmd.
  destruct (Z.leb_spec (len data) (st_p st)); [lia |].
  rewrite !getitem_in_range by lia. reflexivity.
Qed.

(** C4: a 0x14 command at cursor [p] whose fields lie inside the buffer
    emits the one triangle [(c, b, a)] of the u16 indices [a], [b], [c] at
    [p+2], [p+4], [p+6], tagged with the byte at [p+1]; its corners 0, 1, 2
    get the UV byte pairs at [p+0x0E], [p+0x0C], [p+0x0A], each byte divided
    by 256; the cursor advances by 0x14.  Indices (1, 2, 3) with UV bytes
    128, 64 / 0, 0 / 255, 255 give the triangle (3, 2, 1) with UV corners
    (255/256, 255/256), (0, 0), (0.5, 0.25). *)
Theorem tri_uv_command (data : bytes) (idx : Z) (st : cmd_state) :
  (0 <= st_p st -> st_p st + 0x10 <= len data ->
   byte_at data (st_p st) = 0x14 ->
   parse_cmd data idx st =
   Ok (mk_state (st_p st + 0x14)
         (st_tris st ++ [(u16_at data (st_p st + 6),
                          u16_at data (st_p st + 4),
                          u16_at data (st_p st + 2))])
         (st_uvs_per_tri st ++ [[uv_at data (st_p st + 0x0E);
                                 uv_at data (st_p st + 0x0C);
                                 uv_at data (st_p st + 0x0A)]])
         (st_mat_ids st ++ [byte_at data (st_p st + 1)]))) /\
  _parse_poly_commands tri_cmd_example 0 1 =
  Ok ([(3, 2, 1)],
      [[(255 / 256, 255 / 256); (0, 0); (0.5, 0.25)]%float],
      [7]).
Proof.
  split; [| vm_compute; reflexivity].
  intros Hp Hlen Hop.
  rewrite parse_cmd_dispatch by lia. cbv zeta. rewrite Hop.
  change (0x14 =? 0x10) with false. change (0x14 =? 0x12) with false.
  change (0x14 =? 0x13) with false. change (0x14 =? 0x14) with true.
  cbv iota.
  rewrite tri_uv_cmd_in_range by lia.
  replace (st_p st + 0x0A + 4) with (st_p st + 0x0E) by lia.
  replace (st_p st + 0x0A + 2) with (st_p st + 0x0C) by lia.
  reflexivity.
Qed.

Lemma tri_uv_command_witness :
  parse_cmd tri_cmd_example 0 (init_state 0) =
  Ok (mk_state 0x14 [(3, 2, 1)]
        [[(255 / 256, 255 / 256); (0, 0); (0.5, 0.25)]%float] [7]) /\
  _parse_poly_commands tri_cmd_example 0 1 =
  Ok ([(3, 2, 1)],
      [[(255 / 256, 255 / 256); (0, 0); (0.5, 0.25)]%float],
      [7]).
Proof.
  split.
  - exact (proj1 (tri_uv_command tri_cmd_example 0 (init_state 0))
                 ltac:(vm_compute; discriminate)
                 ltac:(vm_compute; discriminate)
                 ltac:(vm_compute; reflexivity)).
  - exact (proj2 (tri_uv_command tri_cmd_example 0 (init_state 0))).
Defined.

(** C1, as claimed, fails: reading the four UV byte pairs at 0x0C, 0x0E,
    0x10, 0x12 as corners A, B, C, D in that order and giving tri0 the pairs
    (A, B, C) and tri1 the pairs (D, A, C) is not what the interpreter
    returns on a 0x15 command with four distinct UV pairs. *)
Lemma quad_uv_order_counterexample :
  byte_at quad_cmd_example 0 = 0x15 /\
  _parse_poly_commands quad_cmd_example 0 1 <>
  Ok ([(3, 2, 1); (4, 3, 1)],
      [[uv_at quad_cmd_example 0x0C; uv_at quad_cmd_example 0x0E;
        uv_at quad_cmd_example 0x10];
       [uv_at quad_cmd_example 0x12; uv_at quad_cmd_example 0x0C;
        uv_at quad_cmd_example 0x10]],
      [9; 9]).
Proof.
  split; [reflexivity |].
  intros H.
  pose (probe := fun r : result (list triangle * list (list uv) * list Z) =>
                   match r with
                   | Ok (_, ((u, _) :: _) :: _, _) => (u <? 0.125)%float
                   | _ => false
                   end).
  apply (f_equal probe) in H. vm_compute in H. discriminate H.
Qed.

(** C1, amended: a 0x15 command at cursor [p] whose fields lie inside the
    buffer emits exactly the two triangles [(c, b, a)] then [(d, c, a)] of
    the u16 indices [a], [b], [c], [d] at [p+2], [p+4], [p+6], [p+8], both
    tagged with the byte at [p+1]; the UV byte pairs at [p+0x0C], [p+0x0E],
    [p+0x10], [p+0x12] are the corners C, B, A, D in that order; tri0 gets
    (A, B, C), tri1 gets (D, A, C); the cursor advances by 0x18. *)
Theorem quad_uv_command (data : bytes) (idx : Z) (st : cmd_state) :
  0 <= st_p st -> st_p st + 0x14 <= len data ->
  byte_at data (st_p st) = 0x15 ->
  parse_cmd data idx st =
  let uvA := uv_at data (st_p st + 0x10) in
  let uvB := uv_at data (st_p st + 0x0E) in
  let uvC := uv_at data (st_p st + 0x0C) in
  let uvD := uv_at data (st_p st + 0x12) in
  Ok (mk_state (st_p st + 0x18)
        (st_tris st ++ [(u16_at data (st_p st + 6),
                         u16_at data (st_p st + 4),
                         u16_at data (st_p st + 2));
                        (u16_at data (st_p st + 8),
                         u16_at data (st_p st + 6),
                         u16_at data (st_p st + 2))])
        (st_uvs_per_tri st ++ [[uvA; uvB; uvC]; [uvD; uvA; uvC]])
        (st_mat_ids st ++ [byte_at data (st_p st + 1);
                           byte_at data (st_p st + 1)])).
Proof.
  intros Hp Hlen Hop.
  rewrite parse_cmd_dispatch by lia. cbv zeta. rewrite Hop.
  change (0x15 =? 0x10) with false. change (0x15 =? 0x12) with false.
  change (0x15 =? 0x13) with false. change (0x15 =? 0x14) with false.
  change (0x15 =? 0x15) with true.
  cbv iota.
  rewrite quad_uv_cmd_in_range by lia.
  replace (st_p st + 0x0C + 6) with (st_p st + 0x12) by lia.
  replace (st_p st + 0x0C + 4) with (st_p st + 0x10) by lia.
  replace (st_p st + 0x0C + 2) with (st_p st + 0x0E) by lia.
  reflexivity.
Qed.

Lemma quad_uv_command_witness :
  parse_cmd quad_cmd_example 0 (init_state 0) =
  Ok (mk_state 0x18 [(3, 2, 1); (4, 3, 1)]
        [[(48 / 256, 49 / 256); (32 / 256, 33 / 256); (16 / 256, 17 / 256)];
         [(64 / 256, 65 / 256); (48 / 256, 49 / 256); (16 / 256, 17 / 256)]
        ]%float
        [9; 9]).
Proof.
  exact (quad_uv_command quad_cmd_example 0 (init_state 0)
           ltac:(vm_compute; discriminate)
           ltac:(vm_compute; discriminate)
           ltac:(vm_compute; reflexivity)).
Defined.

(** ** Failures of the command loop *)

(** Runs the first [k] commands, then fails at command [k] with [e]. *)
Lemma parse_poly_commands_fails_at (data : bytes) (off cnt : Z) (k : nat)
      (st : cmd_state) (e : exn) :
  for_range (parse_cmd data) 0 k (init_state off) = Ok st ->
  Z.of_nat k < cnt ->
  parse_cmd data (Z.of_nat k) st = Raise e ->
  _parse_poly_commands data off cnt = Raise e.
Proof.
  intros Hrun Hk Hfail. unfold _parse_poly_commands.
  replace (Z.to_nat cnt) with (k + S (Z.to_nat cnt - S k))%nat by lia.
  rewrite for_range_app, Hrun. cbn [bind for_range].
  rewrite Z.add_0_l, Hfail. reflexivity.
Qed.

Lemma parse_cmd_overrun (data : bytes) (idx : Z) (st : cmd_state) :
  len data <= st_p st ->
  parse_cmd data idx st =
  Raise (ValueError (CommandBufferOverrun idx (st_p st))).
Proof.
  intros H. unfold parse_cmd.
  destruct (Z.leb_spec (len data) (st_p st)); [reflexivity | lia].
Qed.

Lemma getitem_raises (data : bytes) (i : Z) (e : exn) :
  getitem data i = Raise e -> e = IndexError.
Proof.
  unfold getitem.
  destruct (((if i <? 0 then i + len data else i) <? 0)
            || (len data <=? (if i <? 0 then i + len data else i)));
    congruence.
Qed.

Lemma read_u16_raises (data : bytes) (off : Z) (e : exn) :
  _read_u16 data off = Raise e -> e = struct_error.
Proof.
  unfold _read_u16, unpack_H.
  destruct (unpack_from 2 data off) eqn:E; cbn [bind]; [discriminate |].
  intros H. injection H as <-. exact (unpack_from_raises _ _ _ _ E).
Qed.

Lemma unpack_HHH_raises (data : bytes) (off : Z) (e : exn) :
  unpack_HHH data off = Raise e -> e = struct_error.
Proof.
  unfold unpack_HHH.
  destruct (unpack_from 6 data off) eqn:E; cbn [bind]; [discriminate |].
  intros H. injection H as <-. exact (unpack_from_raises _ _ _ _ E).
Qed.

Lemma uv_byte_raises (data : bytes) (off : Z) (e : exn) :
  uv_byte data off = Raise e -> e = IndexError.
Proof.
  unfold uv_byte.
  destruct (getitem data off) eqn:E; cbn [bind]; [discriminate |].
  intros H. injection H as <-. exact (getitem_raises _ _ _ E).
Qed.

(** Walks a failed chain of reads down to the read that raised. *)
Ltac failed_read H :=
  repeat match type of H with
         | bind ?r _ = Raise _ =>
             let E := fresh "E" in
             destruct r eqn:E; cbn [bind] in H;
             [| injection H as <-;
                first [ apply getitem_raises in E
                      | apply read_u16_raises in E
                      | apply unpack_HHH_raises in E
                      | apply uv_byte_raises in E ];
                (right + left); exact E ]
         end.

Lemma tri_uv_cmd_raises (data : bytes) (st : cmd_state)
      (mesh_id uv_off size : Z) (e : exn) :
  tri_uv_cmd data st mesh_id uv_off size = Raise e ->
  e = struct_error \/ e = IndexError.
Proof.
  unfold tri_uv_cmd. intros H. failed_read H. discriminate H.
Qed.

Lemma quad_uv_cmd_raises (data : bytes) (st : cmd_state)
      (mesh_id uv_off size : Z) (e : exn) :
  quad_uv_cmd data st mesh_id uv_off size = Raise e ->
  e = struct_error \/ e = IndexError.
Proof.
  unfold quad_uv_cmd. intros H. failed_read H. discriminate H.
Qed.

(** The exceptions of one iteration, each with the condition of the
    statement that raises it. *)
Lemma parse_cmd_raises (data : bytes) (idx : Z) (st : cmd_state) (e : exn) :
  parse_cmd data idx st = Raise e ->
  (e = ValueError (CommandBufferOverrun idx (st_p st))
   /\ len data <= st_p st)
  \/ (st_p st < len data
      /\ ((exists op, e = ValueError (UnknownOpcode op (st_p st))
                      /\ getitem data (st_p st) = Ok op
                      /\ known_opcode op = false)
          \/ e = struct_error \/ e = IndexError)).
Proof.
  unfold parse_cmd. intros H.
  destruct (Z.leb_spec (len data) (st_p st)) as [Hge | Hlt].
  { left. injection H as <-. now split. }
  right. split; [exact Hlt |].
  destruct (getitem data (st_p st)) as [op | e0] eqn:Eop; cbn [bind] in H.
  2:{ injection H as <-. apply getitem_raises in Eop. auto. }
  destruct (getitem data (st_p st + 1)) as [mesh_id | e0] eqn:Em;
    cbn [bind] in H.
  2:{ injection H as <-. apply getitem_raises in Em. auto. }
  destruct (op =? 0x10) eqn:E10.
  { right. failed_read H. destruct a as [[i0 i1] i2]. discriminate H. }
  destruct (op =? 0x12) eqn:E12.
  { right. failed_read H. discriminate H. }
  destruct (op =? 0x13) eqn:E13; [discriminate H |].
  destruct (op =? 0x14) eqn:E14.
  { right. exact (tri_uv_cmd_raises _ _ _ _ _ _ H). }
  destruct (op =? 0x15) eqn:E15.
  { right. exact (quad_uv_cmd_raises _ _ _ _ _ _ H). }
  destruct (op =? 0x16) eqn:E16.
  { right. exact (tri_uv_cmd_raises _ _ _ _ _ _ H). }
  destruct (op =? 0x17) eqn:E17.
  { right. exact (quad_uv_cmd_raises _ _ _ _ _ _ H). }
  left. injection H as <-. exists op. split; [reflexivity |].
  split; [reflexivity |].
  unfold known_opcode. now rewrite E10, E12, E13, E14, E15, E16, E17.
Qed.

(** Where a failure of the whole loop comes from: some command [k] below
    the count, reached after [k] successful commands. *)
Lemma for_range_Raise_inv {St : Type} (body : Z -> St -> result St) :
  forall (n : nat) (start : Z) (s : St) (e : exn),
  for_range body start n s = Raise e ->
  exists (k : nat) (s' : St),
    (k < n)%nat /\ for_range body start k s = Ok s'
    /\ body (start + Z.of_nat k) s' = Raise e.
Proof.
  induction n as [| n IH]; intros start s e H.
  - discriminate H.
  - cbn [for_range] in H.
    destruct (body start s) as [s1 | e1] eqn:E1; cbn [bind] in H.
    + apply IH in H. destruct H as (k & s' & Hk & Hrun & Hfail).
      exists (S k), s'. split; [lia |]. split.
      * cbn [for_range]. now rewrite E1.
      * rewrite <- Hfail. f_equal. lia.
    + injection H as <-. exists 0%nat, s. split; [lia |]. split.
      * reflexivity.
      * now rewrite Z.add_0_r.
Qed.

(** C2, as claimed, fails: the only command of this stream is a 0x13 record
    (declared length 0x16) of which the buffer holds two bytes, and the
    interpreter returns normally instead of reporting an overrun. *)
Lemma cut_marker_counterexample :
  byte_at cut_marker_example 0 = 0x13 /\
  len cut_marker_example < 0 + cmd_size 0x13 /\
  _parse_poly_commands cut_marker_example 0 1 = Ok ([], [], []).
Proof. repeat split. Qed.

(** C2, amended: before decoding a command the interpreter checks that the
    cursor is below the length of the buffer.  When the cursor left by the
    first [k] commands is at or past the end and command [k] is still due,
    the call fails with the overrun error naming [k] and that cursor; and
    the overrun error is raised in no other situation (so a last record that
    starts inside the buffer and ends past it is not reported this way). *)
Theorem overrun_check (data : bytes) (off cnt : Z) :
  (forall (idx : Z) (st : cmd_state),
     len data <= st_p st ->
     parse_cmd data idx st =
     Raise (ValueError (CommandBufferOverrun idx (st_p st)))) /\
  (forall (k : nat) (st : cmd_state),
     for_range (parse_cmd data) 0 k (init_state off) = Ok st ->
     Z.of_nat k < cnt ->
     len data <= st_p st ->
     _parse_poly_commands data off cnt =
     Raise (ValueError (CommandBufferOverrun (Z.of_nat k) (st_p st)))) /\
  (forall (i q : Z),
     _parse_poly_commands data off cnt =
     Raise (ValueError (CommandBufferOverrun i q)) ->
     exists (k : nat) (st : cmd_state),
       i = Z.of_nat k /\ Z.of_nat k < cnt /\
       for_range (parse_cmd data) 0 k (init_state off) = Ok st /\
       st_p st = q /\ len data <= q).
Proof.
  split; [| split].
  - intros idx st H. now apply parse_cmd_overrun.
  - intros k st Hrun Hk Hlen.
    apply (parse_poly_commands_fails_at data off cnt k st); try assumption.
    now apply parse_cmd_overrun.
  - intros i q H. unfold _parse_poly_commands in H.
    destruct (for_range (parse_cmd data) 0 (Z.to_nat cnt) (init_state off))
      as [st | e] eqn:Hloop; cbn [bind] in H; [discriminate H |].
    injection H as ->.
    apply for_range_Raise_inv in Hloop.
    destruct Hloop as (k & st & Hk & Hrun & Hfail).
    rewrite Z.add_0_l in Hfail. apply parse_cmd_raises in Hfail.
    destruct Hfail as [[He Hlen] | [_ [ (op & He & _) | [He | He]]]];
      try discriminate He.
    injection He as -> ->.
    exists k, st. repeat split; try assumption; lia.
Qed.

Lemma overrun_check_witness :
  _parse_poly_commands cut_marker_example 0 2 =
  Raise (ValueError (CommandBufferOverrun 1 0x16)).
Proof.
  exact (proj1 (proj2 (overrun_check cut_marker_example 0 2))
               1%nat (mk_state 0x16 [] [] [])
               ltac:(vm_compute; reflexivity) ltac:(lia)
               ltac:(vm_compute; discriminate)).
Defined.

(** C7, as claimed, fails: the stream ends with the opcode byte 0xFF, and
    the interpreter leaves with an index error raised by the read of the
    surface id, not with the unknown opcode error. *)
Lemma last_byte_opcode_counterexample :
  byte_at last_byte_opcode_example 0 = 0xFF /\
  known_opcode 0xFF = false /\
  _parse_poly_commands last_byte_opcode_example 0 1 = Raise IndexError.
Proof. repeat split. Qed.

(** C7, amended: when command [k] is due, its opcode byte is none of 0x10,
    0x12, 0x13, 0x14, 0x15, 0x16, 0x17 and the byte after the opcode lies
    inside the buffer, the call fails with the unknown opcode error naming
    the opcode byte and its offset, however many commands were still to
    come. *)
Theorem unknown_opcode_fatal (data : bytes) (off cnt : Z) (k : nat)
        (st : cmd_state) :
  for_range (parse_cmd data) 0 k (init_state off) = Ok st ->
  Z.of_nat k < cnt ->
  0 <= st_p st -> st_p st + 1 < len data ->
  known_opcode (byte_at data (st_p st)) = false ->
  _parse_poly_commands data off cnt =
  Raise (ValueError (UnknownOpcode (byte_at data (st_p st)) (st_p st))).
Proof.
  intros Hrun Hk Hp Hlen Hop.
  apply (parse_poly_commands_fails_at data off cnt k st); try assumption.
  rewrite parse_cmd_dispatch by lia. cbv zeta.
  unfold known_opcode in Hop.
  destruct (byte_at data (st_p st) =? 0x10); [discriminate Hop |].
  destruct (byte_at data (st_p st) =? 0x12); [discriminate Hop |].
  destruct (byte_at data (st_p st) =? 0x13); [discriminate Hop |].
  destruct (byte_at data (st_p st) =? 0x14); [discriminate Hop |].
  destruct (byte_at data (st_p st) =? 0x15); [discriminate Hop |].
  destruct (byte_at data (st_p st) =? 0x16); [discriminate Hop |].
  destruct (byte_at data (st_p st) =? 0x17); [discriminate Hop |].
  reflexivity.
Qed.

Lemma unknown_opcode_fatal_witness :
  _parse_poly_commands unknown_opcode_example 0 3 =
  Raise (ValueError (UnknownOpcode 0xFF 0)).
Proof.
  exact (unknown_opcode_fatal unknown_opcode_example 0 3 0%nat (init_state 0)
           ltac:(reflexivity) ltac:(lia) ltac:(vm_compute; discriminate)
           ltac:(vm_compute; reflexivity) ltac:(vm_compute; reflexivity)).
Defined.

(** ** Vertex indices *)

Lemma byte_at_nonneg (data : bytes) (i : Z) : 0 <= byte_at data i.
Proof. unfold byte_at, byte_val. lia. Qed.

Lemma u32_at_nonneg (data : bytes) (off : Z) : 0 <= u32_at data off.
Proof.
  unfold u32_at.
  pose proof (byte_at_nonneg data off).
  pose proof (byte_at_nonneg data (off + 1)).
  pose proof (byte_at_nonneg data (off + 2)).
  pose proof (byte_at_nonneg data (off + 3)).
  lia.
Qed.

Lemma decode_header_Ok_inv (data : bytes) (hdr : header) :
  _decode_header data = Ok hdr -> 0 <= cmd_offset hdr.
Proof.
  intros H.
  destruct (Z.lt_ge_cases (len data) 0x30) as [Hlt | Hge].
  - rewrite decode_header_short in H by lia. discriminate H.
  - rewrite decode_header_in_range in H by lia. injection H as <-.
    apply u32_at_nonneg.
Qed.

Lemma faces_at_triangle (data : bytes) (p : Z) (f : face) :
  In f (faces_at data p) -> In (face_tri f) (raw_triangles data p).
Proof.
  unfold faces_at. intros H. apply in_map_iff in H.
  destruct H as ([t u] & <- & Hin). apply in_combine_l in Hin. exact Hin.
Qed.

(** C9: the triangles of a successful decoding are, each, the raw u16
    indices of some command record of the buffer in the order its opcode
    asks for; the decoding block runs the three decoders one after the
    other and checks nothing else, so no index is compared with
    [vertex_count]; a file with [vertex_count = 0] and a triangle
    (5, 6, 7) decodes. *)
Theorem indices_raw_and_unchecked (data : bytes) :
  (forall verts tris uvs mats,
     decode data = Ok (verts, tris, uvs, mats) ->
     Forall (fun t => exists p : Z,
                 0 <= p < len data /\ In t (raw_triangles data p)) tris) /\
  (forall hdr verts tris uvs mats,
     _decode_header data = Ok hdr ->
     _read_vertices data (vert_offset hdr) (vertex_count hdr) = Ok verts ->
     _parse_poly_commands data (cmd_offset hdr) (poly_cmd_count hdr) =
     Ok (tris, uvs, mats) ->
     decode data = Ok (verts, tris, uvs, mats)) /\
  (exists hdr,
     _decode_header unchecked_index_example = Ok hdr /\
     vertex_count hdr = 0 /\
     decode unchecked_index_example =
     Ok ([], [(5, 6, 7)], [zero_uvs], [0])).
Proof.
  split; [| split].
  - intros verts tris uvs mats H. unfold decode in H.
    apply bind_inv in H. destruct H as (hdr & Hhdr & H).
    apply bind_inv in H. destruct H as (verts' & _ & H).
    apply bind_inv in H. destruct H as ([[tris' uvs'] mats'] & Hcmd & H).
    injection H as _ <- _ _.
    apply parse_poly_commands_Ok in Hcmd.
    destruct Hcmd as (fs & -> & _ & _ & Hall).
    specialize (Hall (decode_header_Ok_inv _ _ Hhdr)).
    apply Forall_forall. intros t Ht. apply in_map_iff in Ht.
    destruct Ht as (f & <- & Hf).
    rewrite Forall_forall in Hall. destruct (Hall f Hf) as (p & Hp & Hlen & Hin).
    exists p. split; [lia |]. now apply faces_at_triangle.
  - intros hdr verts tris uvs mats Hhdr Hv Hc. unfold decode.
    rewrite Hhdr. cbn [bind]. rewrite Hv. cbn [bind]. rewrite Hc.
    reflexivity.
  - eexists. split; [vm_compute; reflexivity |]. split; reflexivity.
Qed.

Lemma indices_raw_and_unchecked_witness :
  Forall (fun t => exists p : Z,
              0 <= p < len unchecked_index_example
              /\ In t (raw_triangles unchecked_index_example p))
         [(5, 6, 7)].
Proof.
  exact (proj1 (indices_raw_and_unchecked unchecked_index_example)
               [] [(5, 6, 7)] [zero_uvs] [0]
               ltac:(vm_compute; reflexivity)).
Defined.

(** * Further properties of the command interpreter *)

(** ** Every opcode of the table *)

Lemma cmd_fields_min (op : Z) : 2 <= cmd_fields op.
Proof.
  unfold cmd_fields.
  repeat match goal with |- context [if ?c then _ else _] => destruct c end;
    lia.
Qed.

(** One iteration on a command of the table whose fields lie inside the
    buffer: the faces of the command are appended and the cursor moves by
    the record length. *)
Lemma parse_cmd_in_range (data : bytes) (idx : Z) (st : cmd_state) :
  0 <= st_p st ->
  known_opcode (byte_at data (st_p st)) = true ->
  st_p st + cmd_fields (byte_at data (st_p st)) <= len data ->
  parse_cmd data idx st =
  Ok (mk_state (st_p st + cmd_size (byte_at data (st_p st)))
        (st_tris st ++ map face_tri (faces_at data (st_p st)))
        (st_uvs_per_tri st ++ map face_uvs (faces_at data (st_p st)))
        (st_mat_ids st ++ map face_mat (faces_at data (st_p st)))).
Proof.
  intros Hp Hk Hlen.
  pose proof (cmd_fields_min (byte_at data (st_p st))) as Hmin.
  rewrite parse_cmd_dispatch by lia. cbv zeta.
  unfold faces_at, raw_triangles, raw_uvs.
  destruct (Z.eqb_spec (byte_at data (st_p st)) 0x10) as [Hop | H10].
  { rewrite Hop in *. change (cmd_fields 16) with 8 in Hlen.
    rewrite unpack_HHH_in_range by lia. cbn [bind].
    replace (st_p st + 2 + 2) with (st_p st + 4) by lia.
    replace (st_p st + 2 + 4) with (st_p st + 6) by lia.
    reflexivity. }
  destruct (Z.eqb_spec (byte_at data (st_p st)) 0x12) as [Hop | H12].
  { rewrite Hop in *. change (cmd_fields 18) with 8 in Hlen.
    rewrite !read_u16_in_range by lia. reflexivity. }
  destruct (Z.eqb_spec (byte_at data (st_p st)) 0x13) as [Hop | H13].
  { rewrite Hop in *. cbn [Z.eqb Pos.eqb orb combine map app].
    now rewrite !app_nil_r. }
  destruct (Z.eqb_spec (byte_at data (st_p st)) 0x14) as [Hop | H14].
  { rewrite Hop in *. change (cmd_fields 20) with 16 in Hlen.
    rewrite tri_uv_cmd_in_range by lia. reflexivity. }
  destruct (Z.eqb_spec (byte_at data (st_p st)) 0x15) as [Hop | H15].
  { rewrite Hop in *. change (cmd_fields 21) with 20 in Hlen.
    rewrite quad_uv_cmd_in_range by lia. reflexivity. }
  destruct (Z.eqb_spec (byte_at data (st_p st)) 0x16) as [Hop | H16].
  { rewrite Hop in *. change (cmd_fields 22) with 20 in Hlen.
    rewrite tri_uv_cmd_in_range by lia. reflexivity. }
  destruct (Z.eqb_spec (byte_at data (st_p st)) 0x17) as [Hop | H17].
  { rewrite Hop in *. change (cmd_fields 23) with 28 in Hlen.
    rewrite quad_uv_cmd_in_range by lia. reflexivity. }
  exfalso. unfold known_opcode in Hk.
  rewrite !orb_true_iff in Hk. rewrite !Z.eqb_eq in Hk. intuition congruence.
Qed.

(** Applies [parse_cmd_in_range] to a command whose opcode is known to be
    the number in [Hop]. *)
Ltac by_opcode Hp Hop :=
  rewrite parse_cmd_in_range;
  [ unfold faces_at, raw_triangles, raw_uvs; rewrite Hop
  | exact Hp
  | rewrite Hop; reflexivity
  | rewrite Hop; unfold cmd_fields; cbn [Z.eqb Pos.eqb]; lia ].

(** X1: a 0x10 command at cursor [p] with its index fields inside the
    buffer emits the one triangle [(a, b, c)] of the u16 values at [p+2],
    [p+4], [p+6] in file order, with three zero UV corners and the byte at
    [p+1] as surface id, and the cursor advances by 0x10. *)
Theorem plain_tri_command (data : bytes) (idx : Z) (st : cmd_state) :
  0 <= st_p st -> st_p st + 8 <= len data ->
  byte_at data (st_p st) = 0x10 ->
  parse_cmd data idx st =
  Ok (mk_state (st_p st + 0x10)
        (st_tris st ++ [(u16_at data (st_p st + 2),
                         u16_at data (st_p st + 4),
                         u16_at data (st_p st + 6))])
        (st_uvs_per_tri st ++ [zero_uvs])
        (st_mat_ids st ++ [byte_at data (st_p st + 1)])).
Proof.
  intros Hp Hlen Hop. by_opcode Hp Hop. reflexivity.
Qed.

Lemma plain_tri_command_witness :
  parse_cmd plain_stream_example 0 (init_state 0) =
  Ok (mk_state 0x10 [(5, 6, 7)] [zero_uvs] [4]).
Proof.
  exact (plain_tri_command plain_stream_example 0 (init_state 0)
           ltac:(vm_compute; discriminate) ltac:(vm_compute; discriminate)
           ltac:(vm_compute; reflexivity)).
Defined.

(** X2: a 0x12 command at cursor [p] with its index fields inside the
    buffer emits the one triangle [(c, b, a)], the u16 values at [p+2],
    [p+4], [p+6] in reverse order, with three zero UV corners and the byte
    at [p+1] as surface id, and the cursor advances by 0x14. *)
Theorem reordered_tri_command (data : bytes) (idx : Z) (st : cmd_state) :
  0 <= st_p st -> st_p st + 8 <= len data ->
  byte_at data (st_p st) = 0x12 ->
  parse_cmd data idx st =
  Ok (mk_state (st_p st + 0x14)
        (st_tris st ++ [(u16_at data (st_p st + 6),
                         u16_at data (st_p st + 4),
                         u16_at data (st_p st + 2))])
        (st_uvs_per_tri st ++ [zero_uvs])
        (st_mat_ids st ++ [byte_at data (st_p st + 1)])).
Proof.
  intros Hp Hlen Hop. by_opcode Hp Hop. reflexivity.
Qed.

Lemma reordered_tri_command_witness :
  parse_cmd plain_stream_example 1 (mk_state 0x10 [(5, 6, 7)] [zero_uvs] [4])
  = Ok (mk_state 0x24 [(5, 6, 7); (7, 6, 5)] [zero_uvs; zero_uvs] [4; 2]).
Proof.
  exact (reordered_tri_command plain_stream_example 1
           (mk_state 0x10 [(5, 6, 7)] [zero_uvs] [4])
           ltac:(vm_compute; discriminate) ltac:(vm_compute; discriminate)
           ltac:(vm_compute; reflexivity)).
Defined.

(** X3: a 0x13 command at cursor [p] whose first two bytes are inside the
    buffer emits nothing: the three lists are unchanged and the cursor
    advances by 0x16, whether or not the rest of the record is present. *)
Theorem marker_command (data : bytes) (idx : Z) (st : cmd_state) :
  0 <= st_p st -> st_p st + 2 <= len data ->
  byte_at data (st_p st) = 0x13 ->
  parse_cmd data idx st =
  Ok (mk_state (st_p st + 0x16)
        (st_tris st) (st_uvs_per_tri st) (st_mat_ids st)).
Proof.
  intros Hp Hlen Hop. by_opcode Hp Hop.
  cbn [Z.eqb Pos.eqb orb combine map]. now rewrite !app_nil_r.
Qed.

Lemma marker_command_witness :
  parse_cmd plain_stream_example 2
            (mk_state 0x24 [(5, 6, 7); (7, 6, 5)] [zero_uvs; zero_uvs] [4; 2])
  = Ok (mk_state 0x3A [(5, 6, 7); (7, 6, 5)] [zero_uvs; zero_uvs] [4; 2]).
Proof.
  exact (marker_command plain_stream_example 2
           (mk_state 0x24 [(5, 6, 7); (7, 6, 5)] [zero_uvs; zero_uvs] [4; 2])
           ltac:(vm_compute; discriminate) ltac:(vm_compute; discriminate)
           ltac:(vm_compute; reflexivity)).
Defined.

(** X4: a 0x16 command at cursor [p] with its fields inside the buffer
    emits the one triangle [(c, b, a)] of the u16 values at [p+2], [p+4],
    [p+6]; its corners 0, 1, 2 get the UV byte pairs at [p+0x12],
    [p+0x10], [p+0x0E]; the surface id is the byte at [p+1] and the cursor
    advances by 0x18. *)
Theorem tri_uv_ext_command (data : bytes) (idx : Z) (st : cmd_state) :
  0 <= st_p st -> st_p st + 0x14 <= len data ->
  byte_at data (st_p st) = 0x16 ->
  parse_cmd data idx st =
  Ok (mk_state (st_p st + 0x18)
        (st_tris st ++ [(u16_at data (st_p st + 6),
                         u16_at data (st_p st + 4),
                         u16_at data (st_p st + 2))])
        (st_uvs_per_tri st ++ [[uv_at data (st_p st + 0x12);
                                uv_at data (st_p st + 0x10);
                                uv_at data (st_p st + 0x0E)]])
        (st_mat_ids st ++ [byte_at data (st_p st + 1)])).
Proof.
  intros Hp Hlen Hop. by_opcode Hp Hop.
  cbn [Z.eqb Pos.eqb orb combine map app face_tri face_uvs face_mat fst snd].
  replace (st_p st + 0x0E + 4) with (st_p st + 0x12) by lia.
  replace (st_p st + 0x0E + 2) with (st_p st + 0x10) by lia.
  reflexivity.
Qed.

Lemma tri_uv_ext_command_witness :
  parse_cmd tri_ext_example 0 (init_state 0) =
  Ok (mk_state 0x18 [(3, 2, 1)]
        [[(255 / 256, 255 / 256); (0, 0); (0.5, 0.25)]%float] [7]).
Proof.
  exact (tri_uv_ext_command tri_ext_example 0 (init_state 0)
           ltac:(vm_compute; discriminate) ltac:(vm_compute; discriminate)
           ltac:(vm_compute; reflexivity)).
Defined.

(** X5: a 0x17 command at cursor [p] with its fields inside the buffer
    emits the two triangles [(c, b, a)] then [(d, c, a)] of the u16 values
    [a], [b], [c], [d] at [p+2], [p+4], [p+6], [p+8]; the UV byte pairs at
    [p+0x14], [p+0x16], [p+0x18], [p+0x1A] are the corners C, B, A, D; the
    first triangle gets (A, B, C), the second (D, A, C); both carry the
    byte at [p+1] as surface id and the cursor advances by 0x20. *)
Theorem quad_uv_ext_command (data : bytes) (idx : Z) (st : cmd_state) :
  0 <= st_p st -> st_p st + 0x1C <= len data ->
  byte_at data (st_p st) = 0x17 ->
  parse_cmd data idx st =
  Ok (mk_state (st_p st + 0x20)
        (st_tris st ++ [(u16_at data (st_p st + 6),
                         u16_at data (st_p st + 4),
                         u16_at data (st_p st + 2));
                        (u16_at data (st_p st + 8),
                         u16_at data (st_p st + 6),
                         u16_at data (st_p st + 2))])
        (st_uvs_per_tri st ++ [[uv_at data (st_p st + 0x18);
                                uv_at data (st_p st + 0x16);
                                uv_at data (st_p st + 0x14)];
                               [uv_at data (st_p st + 0x1A);
                                uv_at data (st_p st + 0x18);
                                uv_at data (st_p st + 0x14)]])
        (st_mat_ids st ++ [byte_at data (st_p st + 1);
                           byte_at data (st_p st + 1)])).
Proof.
  intros Hp Hlen Hop. by_opcode Hp Hop.
  cbn [Z.eqb Pos.eqb orb combine map app face_tri face_uvs face_mat fst snd].
  replace (st_p st + 0x14 + 6) with (st_p st + 0x1A) by lia.
  replace (st_p st + 0x14 + 4) with (st_p st + 0x18) by lia.
  replace (st_p st + 0x14 + 2) with (st_p st + 0x16) by lia.
  reflexivity.
Qed.

Lemma quad_uv_ext_command_witness :
  parse_cmd quad_ext_example 0 (init_state 0) =
  Ok (mk_state 0x20 [(3, 2, 1); (4, 3, 1)]
        [[(48 / 256, 49 / 256); (32 / 256, 33 / 256); (16 / 256, 17 / 256)];
         [(64 / 256, 65 / 256); (48 / 256, 49 / 256); (16 / 256, 17 / 256)]
        ]%float
        [9; 9]).
Proof.
  exact (quad_uv_ext_command quad_ext_example 0 (init_state 0)
           ltac:(vm_compute; discriminate) ltac:(vm_compute; discriminate)
           ltac:(vm_compute; reflexivity)).
Defined.

(** ** Success of a whole stream *)

Lemma tri_uv_cmd_Ok_bound (data : bytes) (st st' : cmd_state)
      (mesh_id uv_off size : Z) :
  0 <= st_p st -> 0 <= uv_off ->
  tri_uv_cmd data st mesh_id uv_off size = Ok st' ->
  st_p st + uv_off + 6 <= len data.
Proof.
  unfold tri_uv_cmd. intros Hp Ho H. split_binds H.
  apply uv_byte_Ok_inv in E7; [| lia]. lia.
Qed.

Lemma quad_uv_cmd_Ok_bound (data : bytes) (st st' : cmd_state)
      (mesh_id uv_off size : Z) :
  0 <= st_p st -> 0 <= uv_off ->
  quad_uv_cmd data st mesh_id uv_off size = Ok st' ->
  st_p st + uv_off + 8 <= len data.
Proof.
  unfold quad_uv_cmd. intros Hp Ho H. split_binds H.
  apply uv_byte_Ok_inv in E10; [| lia]. lia.
Qed.

(** A successful iteration found all the fields of its command inside the
    buffer. *)
Lemma parse_cmd_Ok_fields (data : bytes) (idx : Z) (st st' : cmd_state) :
  0 <= st_p st ->
  parse_cmd data idx st = Ok st' ->
  st_p st + cmd_fields (byte_at data (st_p st)) <= len data.
Proof.
  intros Hp H.
  destruct (parse_cmd_Ok _ _ _ _ H) as (_ & fs & _ & _ & _ & Hpos).
  destruct (Hpos Hp) as (Hin & _ & _ & _).
  rewrite parse_cmd_dispatch in H by lia. cbv zeta in H.
  unfold cmd_fields.
  destruct (byte_at data (st_p st) =? 0x10).
  { split_binds H. apply unpack_HHH_Ok_inv in E; [| lia]. lia. }
  destruct (byte_at data (st_p st) =? 0x12).
  { split_binds H. apply read_u16_Ok_inv in E1; [| lia]. lia. }
  destruct (byte_at data (st_p st) =? 0x13); [lia |].
  destruct (byte_at data (st_p st) =? 0x14).
  { apply tri_uv_cmd_Ok_bound in H; lia. }
  destruct (byte_at data (st_p st) =? 0x15).
  { apply quad_uv_cmd_Ok_bound in H; lia. }
  destruct (byte_at data (st_p st) =? 0x16).
  { apply tri_uv_cmd_Ok_bound in H; lia. }
  destruct (byte_at data (st_p st) =? 0x17).
  { apply quad_uv_cmd_Ok_bound in H; lia. }
  discriminate H.
Qed.

Lemma stream_run (data : bytes) :
  forall (k : nat) (idx : Z) (st : cmd_state),
  stream_ok data (st_p st) k = true ->
  exists q : Z,
    for_range (parse_cmd data) idx k st =
    Ok (mk_state q
          (st_tris st ++ map face_tri (stream_faces data (st_p st) k))
          (st_uvs_per_tri st ++ map face_uvs (stream_faces data (st_p st) k))
          (st_mat_ids st ++ map face_mat (stream_faces data (st_p st) k))).
Proof.
  induction k as [| k IH]; intros idx st Hok.
  - exists (st_p st). cbn [for_range stream_faces map].
    rewrite !app_nil_r. now destruct st.
  - cbn [stream_ok] in Hok. cbv zeta in Hok.
    apply andb_prop in Hok. destruct Hok as [Hok Hrest].
    apply andb_prop in Hok. destruct Hok as [Hok Hlen].
    apply andb_prop in Hok. destruct Hok as [Hp Hk].
    apply Z.leb_le in Hp, Hlen.
    cbn [for_range]. rewrite parse_cmd_in_range by assumption. cbn [bind].
    match goal with
    | |- context [for_range _ _ _ ?s] =>
        destruct (IH (idx + 1) s Hrest) as (q & Hq)
    end.
    exists q. rewrite Hq.
    cbn [st_p st_tris st_uvs_per_tri st_mat_ids stream_faces].
    now rewrite !map_app, !app_assoc.
Qed.

Lemma stream_run_inv (data : bytes) :
  forall (k : nat) (idx : Z) (st st' : cmd_state),
  0 <= st_p st ->
  for_range (parse_cmd data) idx k st = Ok st' ->
  stream_ok data (st_p st) k = true.
Proof.
  induction k as [| k IH]; intros idx st st' Hp H.
  - reflexivity.
  - cbn [for_range] in H. apply bind_inv in H.
    destruct H as (st1 & H1 & H2).
    pose proof (parse_cmd_Ok_fields _ _ _ _ Hp H1) as Hf.
    destruct (parse_cmd_Ok _ _ _ _ H1) as (_ & fs & _ & _ & _ & Hpos).
    destruct (Hpos Hp) as (_ & _ & Hk & Hstep).
    pose proof (cmd_size_known _ Hk) as Hsz.
    cbn [stream_ok]. cbv zeta. rewrite Hk.
    rewrite (proj2 (Z.leb_le _ _) Hp), (proj2 (Z.leb_le _ _) Hf).
    cbn [andb]. rewrite <- Hstep. apply (IH (idx + 1) st1 st'); [lia |].
    exact H2.
Qed.

(** X6: for a stream that starts at a position [off >= 0], the interpreter
    succeeds exactly when [poly_cmd_count] commands follow each other from
    [off], each with an opcode of the table and its fields inside the
    buffer; the result is then the faces of these commands in stream
    order, split over the three lists. *)
Theorem parse_poly_commands_iff (data : bytes) (off cnt : Z)
        (tris : list triangle) (uvs : list (list uv)) (mats : list Z) :
  0 <= off ->
  (_parse_poly_commands data off cnt = Ok (tris, uvs, mats) <->
   stream_ok data off (Z.to_nat cnt) = true /\
   tris = map face_tri (stream_faces data off (Z.to_nat cnt)) /\
   uvs = map face_uvs (stream_faces data off (Z.to_nat cnt)) /\
   mats = map face_mat (stream_faces data off (Z.to_nat cnt))).
Proof.
  intros Hoff. unfold _parse_poly_commands. split.
  - intros H. apply bind_inv in H. destruct H as (st & Hrun & Hret).
    pose proof (stream_run_inv data _ _ (init_state off) _ Hoff Hrun) as Hok.
    split; [exact Hok |].
    destruct (stream_run data (Z.to_nat cnt) 0 (init_state off) Hok)
      as (q & Hq).
    rewrite Hq in Hrun. injection Hrun as <-. injection Hret as <- <- <-.
    cbn [st_tris st_uvs_per_tri st_mat_ids init_state st_p app].
    repeat split.
  - intros (Hok & -> & -> & ->).
    destruct (stream_run data (Z.to_nat cnt) 0 (init_state off) Hok)
      as (q & Hq).
    rewrite Hq. reflexivity.
Qed.

Lemma parse_poly_commands_iff_witness :
  _parse_poly_commands plain_stream_example 0 3 =
  Ok ([(5, 6, 7); (7, 6, 5)], [zero_uvs; zero_uvs], [4; 2]).
Proof.
  exact (proj2 (parse_poly_commands_iff plain_stream_example 0 3
                  [(5, 6, 7); (7, 6, 5)] [zero_uvs; zero_uvs] [4; 2]
                  ltac:(lia))
               ltac:(vm_compute; repeat split)).
Defined.

(** ** Shapes of the values read *)

Lemma byte_val_range (b : byte) : is_byte (byte_val b).
Proof.
  unfold is_byte, byte_val. pose proof (Byte.to_N_bounded b). lia.
Qed.

Lemma getitem_Ok_byte (data : bytes) (i v : Z) :
  getitem data i = Ok v -> exists b : byte, v = byte_val b.
Proof.
  unfold getitem.
  destruct (((if i <? 0 then i + len data else i) <? 0)
            || (len data <=? (if i <? 0 then i + len data else i)));
    [discriminate |].
  intros H. injection H as <-. unfold byte_at. eexists. reflexivity.
Qed.

Lemma unpack_from_Ok_length (size : Z) (data : bytes) (off : Z)
      (bs : list byte) :
  0 <= size -> unpack_from size data off = Ok bs ->
  length bs = Z.to_nat size.
Proof.
  intros Hs. unfold unpack_from, len.
  destruct (Z.ltb_spec off 0) as [Hneg | Hpos]; cbn [andb].
  - destruct (Z.ltb_spec (off + Z.of_nat (length data)) 0);
      [discriminate |].
    destruct (Z.ltb_spec (Z.of_nat (length data)
                          - (off + Z.of_nat (length data))) size);
      [discriminate |].
    intros H'. injection H' as <-.
    rewrite length_firstn, length_skipn. lia.
  - destruct (Z.ltb_spec (Z.of_nat (length data) - off) size);
      [discriminate |].
    intros H'. injection H' as <-.
    rewrite length_firstn, length_skipn. lia.
Qed.

Lemma le_uint_bound (bs : list byte) :
  0 <= le_uint bs < 256 ^ Z.of_nat (length bs).
Proof.
  induction bs as [| b bs IH].
  - cbn. lia.
  - cbn [le_uint length]. rewrite Nat2Z.inj_succ, Z.pow_succ_r by lia.
    pose proof (byte_val_range b) as Hb. unfold is_byte in Hb. lia.
Qed.

Lemma read_u16_Ok_range (data : bytes) (off v : Z) :
  _read_u16 data off = Ok v -> is_u16 v.
Proof.
  unfold _read_u16, unpack_H. intros H. split_binds H. injection H as <-.
  apply unpack_from_Ok_length in E; [| lia].
  pose proof (le_uint_bound a) as Hb. rewrite E in Hb.
  exact Hb.
Qed.

Lemma read_u32_Ok_range (data : bytes) (off v : Z) :
  _read_u32 data off = Ok v -> is_u32 v.
Proof.
  unfold _read_u32, unpack_I. intros H. split_binds H. injection H as <-.
  apply unpack_from_Ok_length in E; [| lia].
  pose proof (le_uint_bound a) as Hb. rewrite E in Hb.
  exact Hb.
Qed.

Lemma le_uint_pair_range (bs : list byte) :
  is_u16 (le_uint (firstn 2 bs)).
Proof.
  pose proof (le_uint_bound (firstn 2 bs)) as Hb.
  pose proof (firstn_le_length 2 bs) as Hl.
  assert (256 ^ Z.of_nat (length (firstn 2 bs)) <= 256 ^ 2)
    by (apply Z.pow_le_mono_r; lia).
  unfold is_u16. lia.
Qed.

Lemma unpack_HHH_Ok_range (data : bytes) (off : Z) (a b c : Z) :
  unpack_HHH data off = Ok (a, b, c) -> is_u16 a /\ is_u16 b /\ is_u16 c.
Proof.
  unfold unpack_HHH. intros H. split_binds H.
  injection H as <- <- <-.
  repeat split; apply le_uint_pair_range.
Qed.

Lemma uv_byte_Ok_fraction (data : bytes) (off : Z) (f : float) :
  uv_byte data off = Ok f -> byte_fraction f.
Proof.
  unfold uv_byte. intros H. split_binds H. injection H as <-.
  apply getitem_Ok_byte in E. destruct E as (b & ->). now exists b.
Qed.

Lemma zero_uvs_shape : length zero_uvs = 3%nat /\ Forall uv_shape zero_uvs.
Proof.
  split; [reflexivity |].
  assert (Hz : uv_shape (0, 0)%float) by (split; exists x00; reflexivity).
  unfold zero_uvs. repeat (apply Forall_cons; [exact Hz |]).
  apply Forall_nil.
Qed.

(** Proves [face_shape] of an explicit face from the shapes of its parts. *)
Ltac face_shape_parts :=
  unfold face_shape, face_tri, face_uvs, face_mat; cbn [fst snd];
  split; [split; [| split]; assumption |];
  split; [reflexivity |];
  split; [| assumption];
  first [ exact (proj2 zero_uvs_shape)
        | repeat (apply Forall_cons; [split; assumption |]);
          apply Forall_nil ].

Lemma tri_uv_cmd_Ok_shape (data : bytes) (st st' : cmd_state)
      (mesh_id uv_off size : Z) :
  is_byte mesh_id ->
  tri_uv_cmd data st mesh_id uv_off size = Ok st' ->
  exists f : face,
    face_shape f /\
    st_tris st' = st_tris st ++ [face_tri f] /\
    st_uvs_per_tri st' = st_uvs_per_tri st ++ [face_uvs f] /\
    st_mat_ids st' = st_mat_ids st ++ [face_mat f].
Proof.
  unfold tri_uv_cmd. intros Hm H. split_binds H. injection H as <-.
  apply read_u16_Ok_range in E, E0, E1.
  apply uv_byte_Ok_fraction in E2, E3, E4, E5, E6, E7.
  eexists (_, _, _). split; [| repeat split].
  face_shape_parts.
Qed.

Lemma quad_uv_cmd_Ok_shape (data : bytes) (st st' : cmd_state)
      (mesh_id uv_off size : Z) :
  is_byte mesh_id ->
  quad_uv_cmd data st mesh_id uv_off size = Ok st' ->
  exists f0 f1 : face,
    face_shape f0 /\ face_shape f1 /\
    st_tris st' = st_tris st ++ [face_tri f0; face_tri f1] /\
    st_uvs_per_tri st' = st_uvs_per_tri st ++ [face_uvs f0; face_uvs f1] /\
    st_mat_ids st' = st_mat_ids st ++ [face_mat f0; face_mat f1].
Proof.
  unfold quad_uv_cmd. intros Hm H. split_binds H. injection H as <-.
  apply read_u16_Ok_range in E, E0, E1, E2.
  apply uv_byte_Ok_fraction in E3, E4, E5, E6, E7, E8, E9, E10.
  eexists (_, _, _), (_, _, _).
  split; [| split; [| cbn [st_tris st_uvs_per_tri st_mat_ids face_tri
                           face_uvs face_mat fst snd];
                      rewrite <- !app_assoc; repeat split]].
  - face_shape_parts.
  - face_shape_parts.
Qed.

(** What one successful iteration appended, whatever the cursor was: at
    most two faces, each with u16 indices, three UV corners made of byte
    fractions, and a byte as surface id. *)
Lemma parse_cmd_Ok_shape (data : bytes) (idx : Z) (st st' : cmd_state) :
  parse_cmd data idx st = Ok st' ->
  exists fs : list face,
    (length fs <= 2)%nat /\ Forall face_shape fs /\
    st_tris st' = st_tris st ++ map face_tri fs /\
    st_uvs_per_tri st' = st_uvs_per_tri st ++ map face_uvs fs /\
    st_mat_ids st' = st_mat_ids st ++ map face_mat fs.
Proof.
  unfold parse_cmd. intros H.
  destruct (len data <=? st_p st); [discriminate H |].
  split_binds H. rename a into op, a0 into mesh_id.
  apply getitem_Ok_byte in E0. destruct E0 as (bm & ->).
  pose proof (byte_val_range bm) as Hm.
  pose proof zero_uvs_shape as [Hz3 Hzs].
  destruct (op =? 0x10).
  { split_binds H. destruct a as [[i0 i1] i2]. injection H as <-.
    apply unpack_HHH_Ok_range in E0. destruct E0 as (H0 & H1 & H2).
    exists [((i0, i1, i2), zero_uvs, byte_val bm)].
    split; [cbn; lia |]. split; [| repeat split].
    apply Forall_cons; [| apply Forall_nil].
    face_shape_parts. }
  destruct (op =? 0x12).
  { split_binds H. injection H as <-.
    apply read_u16_Ok_range in E0, E1, E2.
    exists [((a1, a0, a), zero_uvs, byte_val bm)].
    split; [cbn; lia |]. split; [| repeat split].
    apply Forall_cons; [| apply Forall_nil].
    face_shape_parts. }
  destruct (op =? 0x13).
  { injection H as <-. exists []. cbn [map length].
    rewrite !app_nil_r. split; [lia |]. split; [apply Forall_nil |].
    repeat split. }
  destruct (op =? 0x14).
  { apply tri_uv_cmd_Ok_shape in H; [| exact Hm].
    destruct H as (f & Hf & Ht & Hu & Hmm). exists [f].
    split; [cbn; lia |]. split; [repeat (apply Forall_cons; [assumption |]); apply Forall_nil |].
    now cbn [map]. }
  destruct (op =? 0x15).
  { apply quad_uv_cmd_Ok_shape in H; [| exact Hm].
    destruct H as (f0 & f1 & Hf0 & Hf1 & Ht & Hu & Hmm). exists [f0; f1].
    split; [cbn; lia |]. split; [repeat (apply Forall_cons; [assumption |]); apply Forall_nil |].
    now cbn [map]. }
  destruct (op =? 0x16).
  { apply tri_uv_cmd_Ok_shape in H; [| exact Hm].
    destruct H as (f & Hf & Ht & Hu & Hmm). exists [f].
    split; [cbn; lia |]. split; [repeat (apply Forall_cons; [assumption |]); apply Forall_nil |].
    now cbn [map]. }
  destruct (op =? 0x17).
  { apply quad_uv_cmd_Ok_shape in H; [| exact Hm].
    destruct H as (f0 & f1 & Hf0 & Hf1 & Ht & Hu & Hmm). exists [f0; f1].
    split; [cbn; lia |]. split; [repeat (apply Forall_cons; [assumption |]); apply Forall_nil |].
    now cbn [map]. }
  discriminate H.
Qed.

Lemma parse_loop_Ok_shape (data : bytes) :
  forall (k : nat) (idx : Z) (st st' : cmd_state),
  for_range (parse_cmd data) idx k st = Ok st' ->
  exists fs : list face,
    (length fs <= 2 * k)%nat /\ Forall face_shape fs /\
    st_tris st' = st_tris st ++ map face_tri fs /\
    st_uvs_per_tri st' = st_uvs_per_tri st ++ map face_uvs fs /\
    st_mat_ids st' = st_mat_ids st ++ map face_mat fs.
Proof.
  induction k as [| k IH]; intros idx st st' H.
  - injection H as <-. exists []. cbn [map length]. rewrite !app_nil_r.
    split; [lia |]. split; [apply Forall_nil |]. repeat split.
  - cbn [for_range] in H. apply bind_inv in H.
    destruct H as (st1 & H1 & H2).
    apply parse_cmd_Ok_shape in H1.
    destruct H1 as (fs1 & Hl1 & Hs1 & Ht1 & Hu1 & Hm1).
    apply IH in H2. destruct H2 as (fs2 & Hl2 & Hs2 & Ht2 & Hu2 & Hm2).
    exists (fs1 ++ fs2). rewrite length_app, !map_app, !app_assoc.
    rewrite Ht2, Hu2, Hm2, Ht1, Hu1, Hm1.
    split; [lia |]. split; [now apply Forall_app |]. repeat split.
Qed.

Lemma parse_poly_commands_shape (data : bytes) (off cnt : Z)
      (tris : list triangle) (uvs : list (list uv)) (mats : list Z) :
  _parse_poly_commands data off cnt = Ok (tris, uvs, mats) ->
  exists fs : list face,
    (length fs <= 2 * Z.to_nat cnt)%nat /\ Forall face_shape fs /\
    tris = map face_tri fs /\ uvs = map face_uvs fs /\
    mats = map face_mat fs.
Proof.
  unfold _parse_poly_commands. intros H. apply bind_inv in H.
  destruct H as (st & Hloop & Hret). injection Hret as <- <- <-.
  apply parse_loop_Ok_shape in Hloop.
  destruct Hloop as (fs & Hl & Hs & Ht & Hu & Hm). exists fs.
  cbn [init_state st_tris st_uvs_per_tri st_mat_ids app] in *.
  auto.
Qed.

Lemma byte_fraction_in_unit (f : float) : byte_fraction f -> in_unit f.
Proof.
  intros (b & ->). unfold in_unit.
  destruct b; vm_compute; split; reflexivity.
Qed.

(** X7: on success, for every cursor history, each returned triangle has
    three indices in [0, 65535], each returned UV entry has exactly three
    corners, and each returned surface id is a byte value in [0, 255]. *)
Theorem parse_poly_commands_ranges (data : bytes) (off cnt : Z)
        (tris : list triangle) (uvs : list (list uv)) (mats : list Z) :
  _parse_poly_commands data off cnt = Ok (tris, uvs, mats) ->
  Forall tri_u16 tris /\
  Forall (fun corners => length corners = 3%nat) uvs /\
  Forall is_byte mats.
Proof.
  intros H. apply parse_poly_commands_shape in H.
  destruct H as (fs & _ & Hs & -> & -> & ->).
  repeat split; apply Forall_map; (eapply Forall_impl; [| exact Hs]);
    intros f (Ht & Hl & Hu & Hm); assumption.
Qed.

Lemma parse_poly_commands_ranges_witness :
  Forall tri_u16 [(3, 2, 1)] /\
  Forall (fun corners => length corners = 3%nat)
         [[(255 / 256, 255 / 256); (0, 0); (0.5, 0.25)]%float] /\
  Forall is_byte [7].
Proof.
  exact (parse_poly_commands_ranges tri_cmd_example 0 1 _ _ _
           ltac:(vm_compute; reflexivity)).
Defined.

(** X8: on success every UV coordinate returned is some byte of the buffer
    divided by 256, hence a float [f] with [0 <= f < 1]. *)
Theorem parse_poly_commands_uv_unit (data : bytes) (off cnt : Z)
        (tris : list triangle) (uvs : list (list uv)) (mats : list Z) :
  _parse_poly_commands data off cnt = Ok (tris, uvs, mats) ->
  Forall (Forall uv_in_unit) uvs.
Proof.
  intros H. apply parse_poly_commands_shape in H.
  destruct H as (fs & _ & Hs & _ & -> & _).
  apply Forall_map. eapply Forall_impl; [| exact Hs].
  intros f (_ & _ & Hu & _).
  eapply Forall_impl; [| exact Hu].
  intros c Hc. split; [exact Hc |].
  destruct Hc as [Hc1 Hc2].
  split; now apply byte_fraction_in_unit.
Qed.

Lemma parse_poly_commands_uv_unit_witness :
  Forall (Forall uv_in_unit)
         [[(255 / 256, 255 / 256); (0, 0); (0.5, 0.25)]%float].
Proof.
  exact (parse_poly_commands_uv_unit tri_cmd_example 0 1
           [(3, 2, 1)] _ [7] ltac:(vm_compute; reflexivity)).
Defined.

(** X9: a command emits at most two triangles, so on success the number of
    triangles is at most twice the number of commands run (none when the
    count is zero or negative). *)
Theorem parse_poly_commands_count (data : bytes) (off cnt : Z)
        (tris : list triangle) (uvs : list (list uv)) (mats : list Z) :
  _parse_poly_commands data off cnt = Ok (tris, uvs, mats) ->
  Z.of_nat (length tris) <= 2 * Z.max 0 cnt.
Proof.
  intros H. apply parse_poly_commands_shape in H.
  destruct H as (fs & Hl & _ & -> & _ & _).
  rewrite length_map. lia.
Qed.

Lemma parse_poly_commands_count_witness :
  Z.of_nat (length [(3, 2, 1); (4, 3, 1)]) <= 2 * Z.max 0 1.
Proof.
  exact (parse_poly_commands_count quad_cmd_example 0 1 _
           [[(48 / 256, 49 / 256); (32 / 256, 33 / 256); (16 / 256, 17 / 256)];
            [(64 / 256, 65 / 256); (48 / 256, 49 / 256); (16 / 256, 17 / 256)]
           ]%float
           [9; 9] ltac:(vm_compute; reflexivity)).
Defined.

(** ** Failures, continued *)

(** X10: when the call fails with the unknown opcode error naming [op] and
    [q], some command [k] below the count was reached after [k] successful
    commands with the cursor at [q], [q] is below the length of the buffer,
    [op] is the byte [data[q]] the interpreter read there, and [op] is none
    of the opcodes of the table. *)
Theorem unknown_opcode_origin (data : bytes) (off cnt op q : Z) :
  _parse_poly_commands data off cnt =
  Raise (ValueError (UnknownOpcode op q)) ->
  exists (k : nat) (st : cmd_state),
    Z.of_nat k < cnt /\
    for_range (parse_cmd data) 0 k (init_state off) = Ok st /\
    st_p st = q /\ q < len data /\
    getitem data q = Ok op /\ known_opcode op = false.
Proof.
  intros H. unfold _parse_poly_commands in H.
  destruct (for_range (parse_cmd data) 0 (Z.to_nat cnt) (init_state off))
    as [st | e] eqn:Hloop; cbn [bind] in H; [discriminate H |].
  injection H as ->.
  apply for_range_Raise_inv in Hloop.
  destruct Hloop as (k & st & Hk & Hrun & Hfail).
  apply parse_cmd_raises in Hfail.
  destruct Hfail as [[He _] | [Hlt [(op' & He & Hget & Hun) | [He | He]]]];
    try discriminate He.
  injection He as -> ->.
  exists k, st. repeat split; try assumption. lia.
Qed.

Lemma unknown_opcode_origin_witness :
  exists (k : nat) (st : cmd_state),
    Z.of_nat k < 3 /\
    for_range (parse_cmd unknown_opcode_example) 0 k (init_state 0) = Ok st /\
    st_p st = 0 /\ 0 < len unknown_opcode_example /\
    getitem unknown_opcode_example 0 = Ok 0xFF /\
    known_opcode 0xFF = false.
Proof.
  exact (unknown_opcode_origin unknown_opcode_example 0 3 0xFF 0
           ltac:(vm_compute; reflexivity)).
Defined.

(** Follows a chain of reads none of which can be the last one to
    succeed: the chain raises [err]. *)
Ltac cut_chain raises_lemma :=
  repeat match goal with
         | |- bind ?r _ = Raise _ =>
             let E := fresh "E" in
             destruct r eqn:E; cbn [bind];
             [| apply raises_lemma in E; now rewrite E ]
         end.

Lemma tri_uv_cmd_cut_indices (data : bytes) (st : cmd_state)
      (mesh_id uv_off size : Z) :
  0 <= st_p st -> len data < st_p st + 8 ->
  tri_uv_cmd data st mesh_id uv_off size = Raise struct_error.
Proof.
  intros Hp Hlen. unfold tri_uv_cmd.
  destruct (_read_u16 data (st_p st + 2)) eqn:E0; cbn [bind];
    [| apply read_u16_raises in E0; now rewrite E0].
  destruct (_read_u16 data (st_p st + 4)) eqn:E1; cbn [bind];
    [| apply read_u16_raises in E1; now rewrite E1].
  destruct (_read_u16 data (st_p st + 6)) eqn:E2; cbn [bind];
    [| apply read_u16_raises in E2; now rewrite E2].
  apply read_u16_Ok_inv in E2; lia.
Qed.

Lemma quad_uv_cmd_cut_indices (data : bytes) (st : cmd_state)
      (mesh_id uv_off size : Z) :
  0 <= st_p st -> len data < st_p st + 10 ->
  quad_uv_cmd data st mesh_id uv_off size = Raise struct_error.
Proof.
  intros Hp Hlen. unfold quad_uv_cmd.
  destruct (_read_u16 data (st_p st + 2)) eqn:E0; cbn [bind];
    [| apply read_u16_raises in E0; now rewrite E0].
  destruct (_read_u16 data (st_p st + 4)) eqn:E1; cbn [bind];
    [| apply read_u16_raises in E1; now rewrite E1].
  destruct (_read_u16 data (st_p st + 6)) eqn:E2; cbn [bind];
    [| apply read_u16_raises in E2; now rewrite E2].
  destruct (_read_u16 data (st_p st + 8)) eqn:E3; cbn [bind];
    [| apply read_u16_raises in E3; now rewrite E3].
  apply read_u16_Ok_inv in E3; lia.
Qed.

Lemma tri_uv_cmd_cut_uvs (data : bytes) (st : cmd_state)
      (mesh_id uv_off size : Z) :
  0 <= st_p st -> 0 <= uv_off -> st_p st + 8 <= len data ->
  len data < st_p st + uv_off + 6 ->
  tri_uv_cmd data st mesh_id uv_off size = Raise IndexError.
Proof.
  intros Hp Ho Hidx Hlen. unfold tri_uv_cmd.
  rewrite !read_u16_in_range by lia. cbn [bind].
  cut_chain uv_byte_raises.
  apply uv_byte_Ok_inv in E4; lia.
Qed.

Lemma quad_uv_cmd_cut_uvs (data : bytes) (st : cmd_state)
      (mesh_id uv_off size : Z) :
  0 <= st_p st -> 0 <= uv_off -> st_p st + 10 <= len data ->
  len data < st_p st + uv_off + 8 ->
  quad_uv_cmd data st mesh_id uv_off size = Raise IndexError.
Proof.
  intros Hp Ho Hidx Hlen. unfold quad_uv_cmd.
  rewrite !read_u16_in_range by lia. cbn [bind].
  cut_chain uv_byte_raises.
  apply uv_byte_Ok_inv in E6; lia.
Qed.

(** X11: when command [k] is due at a cursor inside the buffer, has an
    opcode of the table, and the fields the interpreter reads for it run
    past the end of the buffer, the call fails with [struct.error] if the
    u16 index fields are cut and with [IndexError] if only UV bytes are:
    never with the overrun error, and never with a result. *)
Theorem truncated_record (data : bytes) (off cnt : Z) (k : nat)
        (st : cmd_state) :
  for_range (parse_cmd data) 0 k (init_state off) = Ok st ->
  Z.of_nat k < cnt ->
  0 <= st_p st -> st_p st + 1 < len data ->
  known_opcode (byte_at data (st_p st)) = true ->
  len data < st_p st + cmd_fields (byte_at data (st_p st)) ->
  _parse_poly_commands data off cnt =
  Raise (if len data <? st_p st + cmd_index_end (byte_at data (st_p st))
         then struct_error else IndexError).
Proof.
  intros Hrun Hk Hp Hin Hknown Hcut.
  apply (parse_poly_commands_fails_at data off cnt k st); try assumption.
  rewrite parse_cmd_dispatch by lia. cbv zeta.
  unfold cmd_index_end.
  destruct (Z.eqb_spec (byte_at data (st_p st)) 0x10) as [Hop | H10].
  { rewrite Hop in *. change (cmd_fields 16) with 8 in Hcut.
    cbn [Z.eqb Pos.eqb orb].
    destruct (Z.ltb_spec (len data) (st_p st + 8)); [| lia].
    unfold unpack_HHH. rewrite unpack_from_overrun by lia. reflexivity. }
  destruct (Z.eqb_spec (byte_at data (st_p st)) 0x12) as [Hop | H12].
  { rewrite Hop in *. change (cmd_fields 18) with 8 in Hcut.
    cbn [Z.eqb Pos.eqb orb].
    destruct (Z.ltb_spec (len data) (st_p st + 8)); [| lia].
    cut_chain read_u16_raises.
    apply read_u16_Ok_inv in E1; lia. }
  destruct (Z.eqb_spec (byte_at data (st_p st)) 0x13) as [Hop | H13].
  { rewrite Hop in *. change (cmd_fields 19) with 2 in Hcut. lia. }
  destruct (Z.eqb_spec (byte_at data (st_p st)) 0x14) as [Hop | H14].
  { rewrite Hop in *. change (cmd_fields 20) with 16 in Hcut.
    cbn [Z.eqb Pos.eqb orb].
    destruct (Z.ltb_spec (len data) (st_p st + 8)).
    - now apply tri_uv_cmd_cut_indices.
    - apply tri_uv_cmd_cut_uvs; lia. }
  destruct (Z.eqb_spec (byte_at data (st_p st)) 0x15) as [Hop | H15].
  { rewrite Hop in *. change (cmd_fields 21) with 20 in Hcut.
    cbn [Z.eqb Pos.eqb orb].
    destruct (Z.ltb_spec (len data) (st_p st + 10)).
    - now apply quad_uv_cmd_cut_indices.
    - apply quad_uv_cmd_cut_uvs; lia. }
  destruct (Z.eqb_spec (byte_at data (st_p st)) 0x16) as [Hop | H16].
  { rewrite Hop in *. change (cmd_fields 22) with 20 in Hcut.
    cbn [Z.eqb Pos.eqb orb].
    destruct (Z.ltb_spec (len data) (st_p st + 8)).
    - now apply tri_uv_cmd_cut_indices.
    - apply tri_uv_cmd_cut_uvs; lia. }
  destruct (Z.eqb_spec (byte_at data (st_p st)) 0x17) as [Hop | H17].
  { rewrite Hop in *. change (cmd_fields 23) with 28 in Hcut.
    cbn [Z.eqb Pos.eqb orb].
    destruct (Z.ltb_spec (len data) (st_p st + 10)).
    - now apply quad_uv_cmd_cut_indices.
    - apply quad_uv_cmd_cut_uvs; lia. }
  exfalso. unfold known_opcode in Hknown.
  rewrite !orb_true_iff in Hknown. rewrite !Z.eqb_eq in Hknown.
  intuition congruence.
Qed.

Lemma truncated_record_witness :
  _parse_poly_commands cut_uv_example 0 1 = Raise IndexError.
Proof.
  exact (truncated_record cut_uv_example 0 1 0%nat (init_state 0)
           ltac:(reflexivity) ltac:(lia) ltac:(vm_compute; discriminate)
           ltac:(vm_compute; reflexivity) ltac:(vm_compute; reflexivity)
           ltac:(vm_compute; reflexivity)).
Defined.

(** * Further properties of the readers and of the header *)

Lemma byte_at_range (data : bytes) (i : Z) : is_byte (byte_at data i).
Proof. unfold byte_at. apply byte_val_range. Qed.

Lemma u16_at_range (data : bytes) (off : Z) : is_u16 (u16_at data off).
Proof.
  unfold u16_at, is_u16.
  pose proof (byte_at_range data off) as H0.
  pose proof (byte_at_range data (off + 1)) as H1.
  unfold is_byte in *. lia.
Qed.

Lemma u32_at_range (data : bytes) (off : Z) : is_u32 (u32_at data off).
Proof.
  unfold u32_at, is_u32.
  pose proof (byte_at_range data off) as H0.
  pose proof (byte_at_range data (off + 1)) as H1.
  pose proof (byte_at_range data (off + 2)) as H2.
  pose proof (byte_at_range data (off + 3)) as H3.
  unfold is_byte in *. lia.
Qed.



(** X13: every header that [_decode_header] returns has its three counts
    in [0, 65535] and its four offsets in [0, 2^32 - 1]. *)
Theorem decode_header_ranges (data : bytes) (hdr : header) :
  _decode_header data = Ok hdr ->
  is_u16 (vertex_count hdr) /\ is_u16 (poly_cmd_count hdr) /\
  is_u16 (mesh_count hdr) /\
  is_u32 (vert_offset hdr) /\ is_u32 (plane_offset hdr) /\
  is_u32 (normal_offset hdr) /\ is_u32 (cmd_offset hdr).
Proof.
  intros H.
  destruct (Z.lt_ge_cases (len data) 0x30) as [Hlt | Hge].
  - rewrite decode_header_short in H by lia. discriminate H.
  - rewrite decode_header_in_range in H by lia. injection H as <-.
    cbn [vertex_count poly_cmd_count mesh_count vert_offset plane_offset
         normal_offset cmd_offset].
    repeat split; first [apply u16_at_range | apply u32_at_range].
Qed.

Lemma decode_header_ranges_witness :
  is_u16 0x0201 /\ is_u16 0x0403 /\ is_u16 0x0605 /\
  is_u32 1 /\ is_u32 2 /\ is_u32 3 /\ is_u32 0x01000004.
Proof.
  exact (decode_header_ranges header_example
           (mk_header 0x0201 0x0403 0x0605 1 2 3 0x01000004)
           ltac:(vm_compute; reflexivity)).
Defined.

(** ** The vertex decoder, continued *)

Lemma read_vertices_loop_length (data : bytes) (base : Z) :
  forall (k : nat) (s : Z) (acc vs : list vertex),
  for_range (read_vertex data base) s k acc = Ok vs ->
  length vs = (length acc + k)%nat.
Proof.
  induction k as [| k IH]; intros s acc vs H.
  - injection H as <-. lia.
  - cbn [for_range] in H. apply bind_inv in H.
    destruct H as (acc' & H1 & H2).
    apply IH in H2. rewrite H2.
    unfold read_vertex in H1. split_binds H1.
    destruct a as [[x y] z]. injection H1 as <-.
    rewrite length_app. cbn [length]. lia.
Qed.

Lemma read_vertices_loop_raises (data : bytes) (base : Z) :
  forall (k : nat) (s : Z) (acc : list vertex) (e : exn),
  for_range (read_vertex data base) s k acc = Raise e -> e = struct_error.
Proof.
  intros k s acc e H. apply for_range_Raise_inv in H.
  destruct H as (j & acc' & _ & _ & Hfail).
  exact (read_vertex_raises _ _ _ _ _ Hfail).
Qed.


(** X15: for an offset [vert_offset >= 0] and a positive count, the vertex
    decoder succeeds exactly when the whole array
    [vert_offset .. vert_offset + vertex_count*12) lies inside the
    buffer. *)
Theorem read_vertices_iff (data : bytes) (base count : Z) :
  0 <= base -> 0 < count ->
  ((exists vs : list vertex, _read_vertices data base count = Ok vs) <->
   base + count * 12 <= len data).
Proof.
  intros Hb Hc. unfold _read_vertices. split.
  - intros (vs & H).
    destruct (Z.le_gt_cases (base + count * 12) (len data)) as [Hle | Hgt];
      [exact Hle |].
    rewrite (read_vertices_loop_overrun data base _ 0 [] (count - 1))
      in H by lia.
    discriminate H.
  - intros Hlen. eexists.
    exact (read_vertices_loop_in_range data base (Z.to_nat count) 0 []
             Hb ltac:(lia)).
Qed.

Lemma read_vertices_iff_witness :
  (exists vs : list vertex, _read_vertices vertex_example 0 1 = Ok vs) <->
  0 + 1 * 12 <= len vertex_example.
Proof.
  exact (read_vertices_iff vertex_example 0 1 ltac:(lia) ltac:(lia)).
Defined.

(** * The decoding block of [execute] *)

Lemma parse_poly_commands_raises (data : bytes) (off cnt : Z) (e : exn) :
  _parse_poly_commands data off cnt = Raise e ->
  (exists i q, e = ValueError (CommandBufferOverrun i q))
  \/ (exists op q, e = ValueError (UnknownOpcode op q))
  \/ e = struct_error \/ e = IndexError.
Proof.
  unfold _parse_poly_commands. intros H.
  destruct (for_range (parse_cmd data) 0 (Z.to_nat cnt) (init_state off))
    as [st | e'] eqn:Hloop; cbn [bind] in H; [discriminate H |].
  injection H as ->.
  apply for_range_Raise_inv in Hloop.
  destruct Hloop as (k & st & _ & _ & Hfail).
  apply parse_cmd_raises in Hfail.
  destruct Hfail as [[He _] | [_ [(op & He & _) | [He | He]]]]; eauto.
Qed.

(** X16: when the decoding block succeeds, the buffer has at least 0x30
    bytes, the number of vertices equals the [vertex_count] field (the u16
    at 0x14), the three face lists have one common length, and that length
    is at most twice the [poly_cmd_count] field (the u16 at 0x16). *)
Theorem decode_counts (data : bytes) (verts : list vertex)
        (tris : list triangle) (uvs : list (list uv)) (mats : list Z) :
  decode data = Ok (verts, tris, uvs, mats) ->
  0x30 <= len data /\
  Z.of_nat (length verts) = u16_at data 0x14 /\
  length uvs = length tris /\ length mats = length tris /\
  Z.of_nat (length tris) <= 2 * u16_at data 0x16.
Proof.
  intros H. unfold decode in H.
  apply bind_inv in H. destruct H as (hdr & Hhdr & H).
  apply bind_inv in H. destruct H as (verts' & Hv & H).
  apply bind_inv in H. destruct H as ([[tris' uvs'] mats'] & Hc & H).
  injection H as <- <- <- <-.
  destruct (Z.lt_ge_cases (len data) 0x30) as [Hlt | Hge].
  { rewrite decode_header_short in Hhdr by lia. discriminate Hhdr. }
  rewrite decode_header_in_range in Hhdr by lia. injection Hhdr as <-.
  cbn [vertex_count poly_cmd_count vert_offset cmd_offset] in Hv, Hc.
  split; [lia |].
  pose proof (u16_at_range data 0x14) as Hvc.
  pose proof (u16_at_range data 0x16) as Hpc.
  unfold is_u16 in Hvc, Hpc.
  unfold _read_vertices in Hv. apply read_vertices_loop_length in Hv.
  cbn [length] in Hv.
  apply parse_poly_commands_shape in Hc.
  destruct Hc as (fs & Hl & _ & -> & -> & ->).
  rewrite !length_map. repeat split; lia.
Qed.

Lemma decode_counts_witness :
  0x30 <= len unchecked_index_example /\
  Z.of_nat (length (A:=vertex) []) = u16_at unchecked_index_example 0x14 /\
  length [zero_uvs] = length [(5, 6, 7)] /\
  length [0] = length [(5, 6, 7)] /\
  Z.of_nat (length [(5, 6, 7)]) <= 2 * u16_at unchecked_index_example 0x16.
Proof.
  exact (decode_counts unchecked_index_example [] [(5, 6, 7)] [zero_uvs] [0]
           ltac:(vm_compute; reflexivity)).
Defined.

(** X17: the decoding block fails with the "file too small" error exactly
    when the buffer is shorter than 0x30 bytes: the header check raises it
    on every short buffer, and no later stage raises it. *)
Theorem decode_too_small_iff (data : bytes) :
  decode data = Raise (ValueError FileTooSmall) <-> len data < 0x30.
Proof.
  unfold decode. split.
  - intros H.
    destruct (Z.lt_ge_cases (len data) 0x30) as [Hlt | Hge]; [exact Hlt |].
    exfalso.
    rewrite decode_header_in_range in H by lia. cbn [bind] in H.
    cbn [vertex_count poly_cmd_count vert_offset cmd_offset] in H.
    destruct (_read_vertices data (u32_at data 0x20) (u16_at data 0x14))
      as [verts | e] eqn:Hv; cbn [bind] in H.
    + destruct (_parse_poly_commands data (u32_at data 0x2C)
                                     (u16_at data 0x16))
        as [[[tris uvs] mats] | e] eqn:Hc; cbn [bind] in H;
        [discriminate H |].
      apply parse_poly_commands_raises in Hc. injection H as ->.
      destruct Hc as [(i & q & He) | [(op & q & He) | [He | He]]];
        discriminate He.
    + unfold _read_vertices in Hv. apply read_vertices_loop_raises in Hv.
      subst e. discriminate H.
  - intros H. now rewrite decode_header_short.
Qed.

(** X18: vertices are decoded before the command stream is looked at: on a
    buffer of at least 0x30 bytes whose header asks for at least one vertex
    and whose vertex array runs past the end of the buffer, the decoding
    block fails with [struct.error], whatever the command fields and the
    command stream are. *)
Theorem decode_vertices_first (data : bytes) :
  0x30 <= len data ->
  0 < u16_at data 0x14 ->
  len data < u32_at data 0x20 + u16_at data 0x14 * 12 ->
  decode data = Raise struct_error.
Proof.
  intros Hlen Hvc Hover. unfold decode.
  rewrite decode_header_in_range by lia. cbn [bind].
  cbn [vertex_count vert_offset]. unfold _read_vertices.
  rewrite (read_vertices_loop_overrun data (u32_at data 0x20) _ 0 []
             (u16_at data 0x14 - 1)) by lia.
  reflexivity.
Qed.

Lemma decode_vertices_first_witness :
  decode short_vertices_example = Raise struct_error.
Proof.
  exact (decode_vertices_first short_vertices_example
           ltac:(vm_compute; discriminate) ltac:(vm_compute; reflexivity)
           ltac:(vm_compute; reflexivity)).
Defined.

(** * Bytes after the data that was read *)

Lemma len_app (data tail : bytes) : len (data ++ tail) = len data + len tail.
Proof. unfold len. rewrite length_app. lia. Qed.

Lemma byte_at_app (data tail : bytes) (i : Z) :
  0 <= i < len data -> byte_at (data ++ tail) i = byte_at data i.
Proof.
  intros H. unfold byte_at. rewrite app_nth1; [reflexivity |].
  unfold len in H. lia.
Qed.

Lemma u16_at_app (data tail : bytes) (off : Z) :
  0 <= off -> off + 2 <= len data ->
  u16_at (data ++ tail) off = u16_at data off.
Proof.
  intros H0 H1. unfold u16_at. now rewrite !byte_at_app by lia.
Qed.

Lemma u32_at_app (data tail : bytes) (off : Z) :
  0 <= off -> off + 4 <= len data ->
  u32_at (data ++ tail) off = u32_at data off.
Proof.
  intros H0 H1. unfold u32_at. now rewrite !byte_at_app by lia.
Qed.

Lemma uv_at_app (data tail : bytes) (off : Z) :
  0 <= off -> off + 2 <= len data ->
  uv_at (data ++ tail) off = uv_at data off.
Proof.
  intros H0 H1. unfold uv_at. now rewrite !byte_at_app by lia.
Qed.

Lemma faces_at_app (data tail : bytes) (p : Z) :
  0 <= p ->
  known_opcode (byte_at data p) = true ->
  p + cmd_fields (byte_at data p) <= len data ->
  faces_at (data ++ tail) p = faces_at data p.
Proof.
  intros Hp Hk Hlen.
  pose proof (cmd_fields_min (byte_at data p)) as Hmin.
  unfold faces_at, raw_triangles, raw_uvs.
  rewrite (byte_at_app data tail p), (byte_at_app data tail (p + 1)) by lia.
  destruct (Z.eqb_spec (byte_at data p) 0x10) as [Hop | H10].
  { rewrite Hop in *. change (cmd_fields 16) with 8 in Hlen.
    cbn [Z.eqb Pos.eqb orb]. now rewrite !u16_at_app by lia. }
  destruct (Z.eqb_spec (byte_at data p) 0x12) as [Hop | H12].
  { rewrite Hop in *. change (cmd_fields 18) with 8 in Hlen.
    cbn [Z.eqb Pos.eqb orb]. now rewrite !u16_at_app by lia. }
  destruct (Z.eqb_spec (byte_at data p) 0x13) as [Hop | H13].
  { rewrite Hop in *. reflexivity. }
  destruct (Z.eqb_spec (byte_at data p) 0x14) as [Hop | H14].
  { rewrite Hop in *. change (cmd_fields 20) with 16 in Hlen.
    cbn [Z.eqb Pos.eqb orb].
    now rewrite !u16_at_app, !uv_at_app by lia. }
  destruct (Z.eqb_spec (byte_at data p) 0x15) as [Hop | H15].
  { rewrite Hop in *. change (cmd_fields 21) with 20 in Hlen.
    cbn [Z.eqb Pos.eqb orb].
    now rewrite !u16_at_app, !uv_at_app by lia. }
  destruct (Z.eqb_spec (byte_at data p) 0x16) as [Hop | H16].
  { rewrite Hop in *. change (cmd_fields 22) with 20 in Hlen.
    cbn [Z.eqb Pos.eqb orb].
    now rewrite !u16_at_app, !uv_at_app by lia. }
  destruct (Z.eqb_spec (byte_at data p) 0x17) as [Hop | H17].
  { rewrite Hop in *. change (cmd_fields 23) with 28 in Hlen.
    cbn [Z.eqb Pos.eqb orb].
    now rewrite !u16_at_app, !uv_at_app by lia. }
  exfalso. unfold known_opcode in Hk.
  rewrite !orb_true_iff in Hk. rewrite !Z.eqb_eq in Hk. intuition congruence.
Qed.

Lemma stream_app (data tail : bytes) :
  forall (k : nat) (p : Z),
  stream_ok data p k = true ->
  stream_ok (data ++ tail) p k = true /\
  stream_faces (data ++ tail) p k = stream_faces data p k.
Proof.
  induction k as [| k IH]; intros p Hok.
  - now split.
  - cbn [stream_ok] in Hok. cbv zeta in Hok.
    apply andb_prop in Hok. destruct Hok as [Hok Hrest].
    apply andb_prop in Hok. destruct Hok as [Hok Hlen].
    apply andb_prop in Hok. destruct Hok as [Hp Hk].
    apply Z.leb_le in Hp, Hlen.
    pose proof (cmd_fields_min (byte_at data p)) as Hmin.
    pose proof (len_nonneg tail) as Ht.
    destruct (IH _ Hrest) as [IHok IHfaces].
    cbn [stream_ok stream_faces]. cbv zeta.
    rewrite (byte_at_app data tail p) by lia.
    rewrite faces_at_app by assumption.
    rewrite IHok, IHfaces, Hk, len_app.
    rewrite (proj2 (Z.leb_le _ _) Hp).
    rewrite (proj2 (Z.leb_le (p + cmd_fields (byte_at data p))
                             (len data + len tail)) ltac:(lia)).
    now split.
Qed.

Lemma parse_poly_commands_trailing_stream (data tail : bytes) (off cnt : Z)
      (r : list triangle * list (list uv) * list Z) :
  0 <= off ->
  _parse_poly_commands data off cnt = Ok r ->
  _parse_poly_commands (data ++ tail) off cnt = Ok r.
Proof.
  intros Hoff H. unfold _parse_poly_commands in *.
  apply bind_inv in H. destruct H as (st & Hrun & Hret).
  pose proof (stream_run_inv data _ _ (init_state off) _ Hoff Hrun) as Hok.
  destruct (stream_run data _ 0 (init_state off) Hok) as (q & Hq).
  rewrite Hq in Hrun. injection Hrun as <-.
  destruct (stream_app data tail _ _ Hok) as [Hok' Hfaces].
  destruct (stream_run (data ++ tail) _ 0 (init_state off) Hok')
    as (q' & Hq').
  rewrite Hq', Hfaces. cbn [bind]. now rewrite <- Hret.
Qed.

(** X19: bytes that follow the buffer do not matter to a successful run of
    the interpreter: if the call succeeds on [data] from an offset
    [off >= 0], it returns the same three lists on [data ++ tail] for
    every [tail]. *)
Theorem parse_poly_commands_trailing (data tail : bytes) (off cnt : Z)
        (r : list triangle * list (list uv) * list Z) :
  0 <= off ->
  _parse_poly_commands data off cnt = Ok r ->
  _parse_poly_commands (data ++ tail) off cnt = Ok r.
Proof.
  intros Hoff H. now apply parse_poly_commands_trailing_stream.
Qed.

Lemma parse_poly_commands_trailing_witness :
  _parse_poly_commands (tri_cmd_example ++ cut_uv_example) 0 1 =
  Ok ([(3, 2, 1)],
      [[(255 / 256, 255 / 256); (0, 0); (0.5, 0.25)]%float],
      [7]).
Proof.
  exact (parse_poly_commands_trailing tri_cmd_example cut_uv_example 0 1 _
           ltac:(lia) ltac:(vm_compute; reflexivity)).
Defined.

Lemma vertex_at_app (data tail : bytes) (base i : Z) :
  0 <= base + i * 12 -> base + i * 12 + 12 <= len data ->
  vertex_at (data ++ tail) base i = vertex_at data base i.
Proof.
  intros H0 H1. unfold vertex_at, f32_at.
  now rewrite !u32_at_app by lia.
Qed.

Lemma read_vertices_trailing (data tail : bytes) (base count : Z)
      (vs : list vertex) :
  0 <= base ->
  _read_vertices data base count = Ok vs ->
  _read_vertices (data ++ tail) base count = Ok vs.
Proof.
  intros Hb H. unfold _read_vertices in *.
  destruct (Z.le_gt_cases count 0) as [Hc | Hc].
  - replace (Z.to_nat count) with 0%nat in * by lia. exact H.
  - assert (Hlen : base + count * 12 <= len data).
    { destruct (Z.le_gt_cases (base + count * 12) (len data)) as [Hle | Hgt];
        [exact Hle |].
      rewrite (read_vertices_loop_overrun data base _ 0 [] (count - 1))
        in H by lia.
      discriminate H. }
    pose proof (len_nonneg tail) as Ht.
    pose proof (read_vertices_loop_in_range data base (Z.to_nat count) 0 []
                  Hb ltac:(lia)) as Hin.
    pose proof (read_vertices_loop_in_range (data ++ tail) base
                  (Z.to_nat count) 0 []
                  Hb ltac:(rewrite len_app; lia)) as Hin'.
    change (Z.of_nat 0) with 0 in Hin, Hin'.
    rewrite Hin in H. rewrite Hin', <- H. f_equal. f_equal.
    apply map_ext_in.
    intros i Hi. apply in_seq in Hi. apply vertex_at_app; lia.
Qed.

(** X20: appending bytes to a file that decodes does not change what it
    decodes to: if the decoding block succeeds on [data], it returns the
    same vertices, triangles, UV corners and surface ids on
    [data ++ tail] for every [tail]. *)
Theorem decode_trailing (data tail : bytes)
        (g : list vertex * list triangle * list (list uv) * list Z) :
  decode data = Ok g -> decode (data ++ tail) = Ok g.
Proof.
  intros H. unfold decode in *.
  destruct (Z.lt_ge_cases (len data) 0x30) as [Hlt | Hge].
  { rewrite decode_header_short in H by lia. discriminate H. }
  pose proof (len_nonneg tail) as Ht.
  rewrite decode_header_in_range in H by lia.
  rewrite decode_header_in_range by (rewrite len_app; lia).
  rewrite !u16_at_app, !u32_at_app by lia.
  cbn [bind vertex_count poly_cmd_count vert_offset cmd_offset] in *.
  destruct (_read_vertices data (u32_at data 0x20) (u16_at data 0x14))
    as [verts | e] eqn:Hv; cbn [bind] in H; [| discriminate H].
  rewrite (read_vertices_trailing _ tail _ _ _
             (u32_at_nonneg data 0x20) Hv).
  cbn [bind].
  destruct (_parse_poly_commands data (u32_at data 0x2C) (u16_at data 0x16))
    as [r | e] eqn:Hc; cbn [bind] in H; [| discriminate H].
  rewrite (parse_poly_commands_trailing_stream data tail _ _ _
             (u32_at_nonneg data 0x2C) Hc).
  exact H.
Qed.

Lemma decode_trailing_witness :
  decode (unchecked_index_example ++ cut_uv_example) =
  Ok ([], [(5, 6, 7)], [zero_uvs], [0]).
Proof.
  exact (decode_trailing unchecked_index_example cut_uv_example _
           ltac:(vm_compute; reflexivity)).
Defined.

(** * The mesh builder *)

(** ** The UV loop *)

Lemma set_uv_next (pre suf : list uv) (x c : uv) :
  set_uv (pre ++ x :: suf) (length pre) c = Ok (pre ++ c :: suf).
Proof.
  unfold set_uv.
  destruct (Nat.ltb_spec (length pre) (length (pre ++ x :: suf)))
    as [_ | Hge].
  - rewrite firstn_app, Nat.sub_diag, firstn_all. cbn [firstn].
    rewrite app_nil_r.
    replace (S (length pre)) with (1 + length pre)%nat by lia.
    rewrite <- skipn_skipn, skipn_app, Nat.sub_diag, skipn_all.
    reflexivity.
  - rewrite length_app in Hge. cbn [length] in Hge. lia.
Qed.


Lemma write_corners_in_range : forall (cs old pre suf : list uv),
  length old = length cs ->
  write_corners cs (pre ++ old ++ suf, length pre) =
  Ok (pre ++ map flip_v cs ++ suf, (length pre + length cs)%nat).
Proof.
  induction cs as [| [u v] cs IH]; intros old pre suf Hlen.
  - destruct old; [| discriminate Hlen].
    cbn [write_corners map app length]. now rewrite Nat.add_0_r.
  - destruct old as [| x old]; [discriminate Hlen |].
    cbn [write_corners map app length]. rewrite set_uv_next. cbn [bind].
    pose proof (IH old (pre ++ [(u, (1 - v)%float)]) suf
                  ltac:(cbn [length] in Hlen; lia)) as Hnext.
    rewrite length_app, <- !app_assoc in Hnext. cbn [length app] in Hnext.
    replace (length pre + 1)%nat with (S (length pre)) in Hnext by lia.
    rewrite Hnext. unfold flip_v at 2. cbn [fst snd]. f_equal. f_equal. lia.
Qed.


Lemma write_uvs_in_range : forall (uvs : list (list uv)) (old pre suf : list uv),
  length old = length (concat uvs) ->
  write_uvs uvs (pre ++ old ++ suf, length pre) =
  Ok (pre ++ map flip_v (concat uvs) ++ suf,
      (length pre + length (concat uvs))%nat).
Proof.
  induction uvs as [| cs uvs IH]; intros old pre suf Hlen.
  - destruct old; [| discriminate Hlen].
    cbn [write_uvs concat map app length]. now rewrite Nat.add_0_r.
  - cbn [concat] in *. rewrite length_app in Hlen.
    rewrite <- (firstn_skipn (length cs) old), <- app_assoc.
    cbn [write_uvs].
    rewrite write_corners_in_range by (rewrite length_firstn; lia).
    cbn [bind].
    pose proof (IH (skipn (length cs) old) (pre ++ map flip_v cs) suf
                  ltac:(rewrite length_skipn; lia)) as Hnext.
    rewrite length_app, length_map, <- !app_assoc in Hnext.
    rewrite Hnext. rewrite map_app, length_app, <- !app_assoc.
    f_equal. f_equal. lia.
Qed.



Lemma concat_length_3 (uvs : list (list uv)) :
  Forall (fun corners => length corners = 3%nat) uvs ->
  length (concat uvs) = (3 * length uvs)%nat.
Proof.
  induction 1 as [| cs uvs Hcs _ IH]; [reflexivity |].
  cbn [concat length]. rewrite length_app, Hcs, IH. lia.
Qed.

Lemma nth_concat_3 (d : uv) : forall (uvs : list (list uv)) (t c : nat),
  Forall (fun corners => length corners = 3%nat) uvs ->
  (c < 3)%nat ->
  nth (3 * t + c) (concat uvs) d = nth c (nth t uvs []) d.
Proof.
  induction uvs as [| cs uvs IH]; intros t c Hall Hc.
  - cbn [concat]. destruct t; destruct c; destruct (3 * _ + _)%nat;
      reflexivity.
  - inversion Hall as [| ? ? Hcs Hrest]; subst. cbn [concat].
    destruct t as [| t].
    + cbn [nth]. rewrite Nat.mul_0_r, Nat.add_0_l.
      apply app_nth1. lia.
    + cbn [nth]. rewrite app_nth2 by lia.
      replace (3 * S t + c - length cs)%nat with (3 * t + c)%nat by lia.
      now apply IH.
Qed.

Lemma flipped_fraction_range (f : float) :
  byte_fraction f ->
  (0 <? 1 - f)%float = true /\ (1 - f <=? 1)%float = true.
Proof.
  intros (b & ->). destruct b; vm_compute; split; reflexivity.
Qed.

(** X22: the UV lists of a successful interpreter run fit a UV layer with
    three loops per triangle: the UV loop succeeds and ends at
    [loop_index = 3 * len(tris)]; loop [3*t + c] holds corner [c] of
    triangle [t] as [(u, 1.0 - v)]; every stored U satisfies [0 <= u < 1]
    and every stored V satisfies [0 < v <= 1]. *)
Theorem uv_layer_of_parsed (data : bytes) (off cnt : Z)
        (tris : list triangle) (uvs : list (list uv)) (mats : list Z)
        (loop_data : list uv) :
  _parse_poly_commands data off cnt = Ok (tris, uvs, mats) ->
  length loop_data = (3 * length tris)%nat ->
  fill_uv_layer loop_data uvs =
  Ok (map flip_v (concat uvs), (3 * length tris)%nat) /\
  (forall (t c : nat) (d : uv),
     (t < length tris)%nat -> (c < 3)%nat ->
     nth (3 * t + c) (map flip_v (concat uvs)) (flip_v d) =
     flip_v (nth c (nth t uvs []) d)) /\
  Forall (fun c : uv =>
            in_unit (fst c) /\
            (0 <? snd c)%float = true /\ (snd c <=? 1)%float = true)
         (map flip_v (concat uvs)).
Proof.
  intros H Hld. apply parse_poly_commands_shape in H.
  destruct H as (fs & _ & Hs & -> & -> & _).
  rewrite length_map in Hld. rewrite length_map.
  assert (H3 : Forall (fun corners => length corners = 3%nat)
                      (map face_uvs fs)).
  { apply Forall_map. eapply Forall_impl; [| exact Hs].
    intros f (_ & Hl & _). exact Hl. }
  pose proof (concat_length_3 _ H3) as Hn. rewrite length_map in Hn.
  split; [| split].
  - pose proof (write_uvs_in_range (map face_uvs fs) loop_data [] []
                  ltac:(lia)) as Hw.
    cbn [app length] in Hw. rewrite !app_nil_r, Hn in Hw. exact Hw.
  - intros t c d Ht Hc. rewrite map_nth. f_equal.
    now apply nth_concat_3.
  - apply Forall_map. apply Forall_concat. apply Forall_map.
    eapply Forall_impl; [| exact Hs].
    intros f (_ & _ & Hu & _).
    eapply Forall_impl; [| exact Hu].
    intros [u v] [Hcu Hcv]. cbn [flip_v fst snd] in *.
    split; [now apply byte_fraction_in_unit |].
    now apply flipped_fraction_range.
Qed.

Lemma uv_layer_of_parsed_witness :
  fill_uv_layer [(0, 0); (0, 0); (0, 0)]%float
                [[(255 / 256, 255 / 256); (0, 0); (0.5, 0.25)]%float] =
  Ok (map flip_v
          (concat [[(255 / 256, 255 / 256); (0, 0); (0.5, 0.25)]%float]),
      (3 * length [(3, 2, 1)])%nat).
Proof.
  exact (proj1 (uv_layer_of_parsed tri_cmd_example 0 1
                  [(3, 2, 1)] _ [7] [(0, 0); (0, 0); (0, 0)]%float
                  ltac:(vm_compute; reflexivity) ltac:(reflexivity))).
Defined.

(** ** The material assignment *)

Lemma insert_sorted_In (x y : Z) (l : list Z) :
  In y (insert_sorted x l) <-> y = x \/ In y l.
Proof.
  induction l as [| z l IH]; cbn [insert_sorted In].
  - intuition.
  - destruct (x <=? z); cbn [In]; rewrite ?IH; intuition.
Qed.

Lemma sorted_In (y : Z) (l : list Z) : In y (sorted l) <-> In y l.
Proof.
  induction l as [| x l IH]; cbn [sorted In]; [reflexivity |].
  rewrite insert_sorted_In, IH. intuition.
Qed.

Lemma insert_sorted_ascending (x : Z) (l : list Z) :
  ascending l -> ~ In x l -> ascending (insert_sorted x l).
Proof.
  unfold ascending. induction 1 as [| z l Hl IH Hz]; intros Hx.
  - cbn. constructor; constructor.
  - cbn [insert_sorted]. destruct (Z.leb_spec x z) as [Hle | Hgt].
    + assert (Hlt : x < z) by (cbn [In] in Hx; lia).
      constructor; [now constructor |].
      constructor; [exact Hlt |].
      eapply Forall_impl; [| exact Hz]. cbn. intros a Ha. lia.
    + constructor.
      * apply IH. cbn [In] in Hx. tauto.
      * apply Forall_forall. intros a Ha.
        apply insert_sorted_In in Ha. destruct Ha as [-> | Ha]; [lia |].
        rewrite Forall_forall in Hz. now apply Hz.
Qed.

Lemma sorted_ascending (l : list Z) : NoDup l -> ascending (sorted l).
Proof.
  induction 1 as [| x l Hx _ IH]; cbn [sorted].
  - constructor.
  - apply insert_sorted_ascending; [exact IH |]. now rewrite sorted_In.
Qed.

Lemma ascending_NoDup (l : list Z) : ascending l -> NoDup l.
Proof.
  unfold ascending. induction 1 as [| x l _ IH Hx]; constructor;
    [| exact IH].
  intros Hin. rewrite Forall_forall in Hx. specialize (Hx x Hin). lia.
Qed.

Lemma unique_ids_spec (mat_ids : list Z) :
  ascending (sorted (py_set mat_ids)) /\
  forall mid, In mid (sorted (py_set mat_ids)) <-> In mid mat_ids.
Proof.
  split.
  - apply sorted_ascending. apply NoDup_nodup.
  - intros mid. rewrite sorted_In. unfold py_set. apply nodup_In.
Qed.

Lemma ascending_unique : forall l1 l2 : list Z,
  ascending l1 -> ascending l2 ->
  (forall x, In x l1 <-> In x l2) -> l1 = l2.
Proof.
  unfold ascending.
  induction l1 as [| x l1 IH]; intros l2 H1 H2 Hin.
  - destruct l2 as [| y l2]; [reflexivity |].
    exfalso. apply (proj2 (Hin y)). now left.
  - destruct l2 as [| y l2].
    { exfalso. apply (proj1 (Hin x)). now left. }
    inversion H1 as [| ? ? H1' Hx]; subst.
    inversion H2 as [| ? ? H2' Hy]; subst.
    rewrite Forall_forall in Hx, Hy.
    assert (Hxy : x = y).
    { destruct (proj1 (Hin x) (or_introl eq_refl)) as [Heq | Hx2];
        [now symmetry |].
      destruct (proj2 (Hin y) (or_introl eq_refl)) as [Heq | Hy1];
        [exact Heq |].
      specialize (Hx y Hy1). specialize (Hy x Hx2). lia. }
    subst y. f_equal. apply IH; try assumption.
    intros z. split; intros Hz.
    + destruct (proj1 (Hin z) (or_intror Hz)) as [Heq | Hz2];
        [| exact Hz2].
      specialize (Hx z Hz). lia.
    + destruct (proj2 (Hin z) (or_intror Hz)) as [Heq | Hz1];
        [| exact Hz1].
      specialize (Hy z Hz). lia.
Qed.

Lemma dict_get_set (d : dict) (k v k' default : Z) :
  dict_get (dict_set d k v) k' default =
  if k =? k' then v else dict_get d k' default.
Proof.
  induction d as [| [k0 v0] d IH]; cbn [dict_set dict_get].
  - reflexivity.
  - destruct (Z.eqb_spec k0 k) as [-> | Hne]; cbn [dict_get].
    + destruct (k =? k'); reflexivity.
    + rewrite IH. destruct (Z.eqb_spec k0 k') as [-> | Hne'];
        [| reflexivity].
      destruct (Z.eqb_spec k k'); [congruence | reflexivity].
Qed.

Lemma make_materials_spec : forall (ids : list Z) (mats : list material)
                                   (d : dict),
  fst (make_materials ids (mats, d)) = mats ++ map Mesh_ ids /\
  (forall mid, ~ In mid ids ->
     dict_get (snd (make_materials ids (mats, d))) mid 0 = dict_get d mid 0)
  /\
  (NoDup ids ->
   forall (j : nat) (mid : Z),
     nth_error ids j = Some mid ->
     dict_get (snd (make_materials ids (mats, d))) mid 0 =
     Z.of_nat (length mats + j)).
Proof.
  induction ids as [| mid0 ids IH]; intros mats d.
  - cbn [make_materials fst snd map]. rewrite app_nil_r.
    split; [reflexivity |]. split; [reflexivity |].
    intros _ j mid Hj. destruct j; discriminate Hj.
  - cbn [make_materials].
    destruct (IH (mats ++ [Mesh_ mid0])
                 (dict_set d mid0
                    (Z.of_nat (length (mats ++ [Mesh_ mid0])) - 1)))
      as (Hmats & Hout & Hin).
    assert (Hlen : Z.of_nat (length (mats ++ [Mesh_ mid0])) - 1
                   = Z.of_nat (length mats))
      by (rewrite length_app; cbn [length]; lia).
    split; [| split].
    + rewrite Hmats, <- app_assoc. reflexivity.
    + intros mid Hnot. cbn [In] in Hnot.
      rewrite Hout by tauto. rewrite dict_get_set.
      destruct (Z.eqb_spec mid0 mid); [tauto | reflexivity].
    + intros Hnd j mid Hj. inversion Hnd as [| ? ? Hnot Hnd']; subst.
      destruct j as [| j].
      * injection Hj as <-. rewrite Hout by exact Hnot.
        rewrite dict_get_set, Z.eqb_refl, Hlen. f_equal. lia.
      * cbn [nth_error] in Hj. rewrite (Hin Hnd' j mid Hj).
        rewrite length_app. cbn [length]. f_equal. lia.
Qed.

Lemma assign_polys_spec : forall (polys ids : list Z) (d : dict),
  length (assign_polys polys ids d) = length polys /\
  forall k : nat,
    ((k < length polys)%nat -> (k < length ids)%nat ->
     nth k (assign_polys polys ids d) 0 = dict_get d (nth k ids 0) 0) /\
    ((length ids <= k)%nat ->
     nth k (assign_polys polys ids d) 0 = nth k polys 0).
Proof.
  induction polys as [| q polys IH]; intros ids d.
  - cbn [assign_polys]. split; [reflexivity |]. intros k.
    split; [cbn [length]; lia | reflexivity].
  - destruct ids as [| mid ids]; cbn [assign_polys].
    + split; [reflexivity |]. intros k.
      split; [cbn [length]; lia | reflexivity].
    + destruct (IH ids d) as (Hlen & Hnth). cbn [length].
      split; [now rewrite Hlen |]. intros k. destruct k as [| k].
      * split; [reflexivity | lia].
      * cbn [nth]. destruct (Hnth k) as (Hin & Hout).
        split; intros; [apply Hin | apply Hout]; lia.
Qed.

(** What the material part computes, with the dictionary made explicit. *)
Lemma assign_materials_spec (materials : list material)
      (polygons mat_ids : list Z) :
  exists d : dict,
    assign_materials true materials polygons mat_ids =
    (materials ++ map Mesh_ (sorted (py_set mat_ids)),
     assign_polys polygons mat_ids d) /\
    forall (j : nat) (mid : Z),
      nth_error (sorted (py_set mat_ids)) j = Some mid ->
      dict_get d mid 0 = Z.of_nat (length materials + j).
Proof.
  unfold assign_materials. cbv zeta.
  pose proof (make_materials_spec (sorted (py_set mat_ids)) materials [])
    as (Hmats & _ & Hin).
  destruct (make_materials (sorted (py_set mat_ids)) (materials, []))
    as [materials' d] eqn:E.
  assert (Hm : materials'
               = materials ++ map Mesh_ (sorted (py_set mat_ids))).
  { match type of E with
    | _ = ?r => change materials' with (fst r); rewrite <- E
    end.
    exact Hmats. }
  exists d. split; [now rewrite Hm |].
  intros j mid Hj.
  match type of E with
  | _ = ?r => change d with (snd r); rewrite <- E
  end.
  exact (Hin (ascending_NoDup _ (proj1 (unique_ids_spec mat_ids))) j mid Hj).
Qed.

Lemma polygon_material_at (materials : list material)
      (polygons mat_ids : list Z) (k : nat) :
  (k < length polygons)%nat -> (k < length mat_ids)%nat ->
  Z.of_nat (length materials)
  <= nth k (snd (assign_materials true materials polygons mat_ids)) 0 /\
  nth_error (fst (assign_materials true materials polygons mat_ids))
            (Z.to_nat
               (nth k (snd (assign_materials true materials polygons
                                             mat_ids)) 0))
  = Some (Mesh_ (nth k mat_ids 0)).
Proof.
  intros Hp Hm.
  destruct (assign_materials_spec materials polygons mat_ids)
    as (d & -> & Hd).
  cbn [fst snd].
  destruct (assign_polys_spec polygons mat_ids d) as (_ & Hnth).
  rewrite (proj1 (Hnth k) Hp Hm).
  assert (Hin : In (nth k mat_ids 0) (sorted (py_set mat_ids))).
  { apply unique_ids_spec. now apply nth_In. }
  apply In_nth_error in Hin. destruct Hin as (j & Hj).
  rewrite (Hd j _ Hj). split; [lia |].
  rewrite Nat2Z.id, nth_error_app2 by lia.
  replace (length materials + j - length materials)%nat with j by lia.
  now apply map_nth_error.
Qed.

(** X23: with [create_materials] set, the polygon of every triangle [k]
    (below both the number of polygons and the number of surface ids) gets
    a material index that points, in the material list of the mesh, at the
    material made for the surface id of triangle [k]; so two such polygons
    share a material index exactly when their surface ids are equal, and
    the default 0 of [.get] is never what is stored; polygons beyond the
    surface ids keep their index and no polygon is added or removed. *)
Theorem polygon_material (materials : list material)
        (polygons mat_ids : list Z) :
  length (snd (assign_materials true materials polygons mat_ids))
  = length polygons /\
  (forall k : nat,
     (k < length polygons)%nat -> (k < length mat_ids)%nat ->
     Z.of_nat (length materials)
     <= nth k (snd (assign_materials true materials polygons mat_ids)) 0 /\
     nth_error (fst (assign_materials true materials polygons mat_ids))
               (Z.to_nat
                  (nth k (snd (assign_materials true materials polygons
                                                mat_ids)) 0))
     = Some (Mesh_ (nth k mat_ids 0))) /\
  (forall k1 k2 : nat,
     (k1 < length polygons)%nat -> (k1 < length mat_ids)%nat ->
     (k2 < length polygons)%nat -> (k2 < length mat_ids)%nat ->
     (nth k1 (snd (assign_materials true materials polygons mat_ids)) 0
      = nth k2 (snd (assign_materials true materials polygons mat_ids)) 0
      <-> nth k1 mat_ids 0 = nth k2 mat_ids 0)) /\
  (forall k : nat,
     (length mat_ids <= k)%nat ->
     nth k (snd (assign_materials true materials polygons mat_ids)) 0
     = nth k polygons 0).
Proof.
  split; [| split; [| split]].
  - destruct (assign_materials_spec materials polygons mat_ids)
      as (d & -> & _).
    cbn [snd]. apply assign_polys_spec.
  - intros k Hp Hm. now apply polygon_material_at.
  - intros k1 k2 Hp1 Hm1 Hp2 Hm2. split; intros H.
    + destruct (polygon_material_at materials polygons mat_ids k1 Hp1 Hm1)
        as (_ & H1).
      destruct (polygon_material_at materials polygons mat_ids k2 Hp2 Hm2)
        as (_ & H2).
      rewrite H, H2 in H1. now injection H1.
    + destruct (assign_materials_spec materials polygons mat_ids)
        as (d & -> & _).
      cbn [snd].
      destruct (assign_polys_spec polygons mat_ids d) as (_ & Hnth).
      rewrite (proj1 (Hnth k1) Hp1 Hm1), (proj1 (Hnth k2) Hp2 Hm2).
      now rewrite H.
  - intros k Hk.
    destruct (assign_materials_spec materials polygons mat_ids)
      as (d & -> & _).
    cbn [snd]. now apply assign_polys_spec.
Qed.

Lemma polygon_material_witness :
  Z.of_nat (length (A:=material) [])
  <= nth 0 (snd (assign_materials true [] [0; 0; 0] [9; 4; 9])) 0 /\
  nth_error (fst (assign_materials true [] [0; 0; 0] [9; 4; 9]))
            (Z.to_nat
               (nth 0 (snd (assign_materials true [] [0; 0; 0] [9; 4; 9]))
                    0))
  = Some (Mesh_ (nth 0 [9; 4; 9] 0)).
Proof.
  exact (proj1 (proj2 (polygon_material [] [0; 0; 0] [9; 4; 9]))
               0%nat ltac:(cbn; lia) ltac:(cbn; lia)).
Defined.

(** X24: with [create_materials] set, the materials appended to the mesh
    are one per distinct surface id, in strictly ascending id order, after
    the materials the mesh already had; the order in which the set
    enumerates the ids does not matter; without [create_materials] neither
    the materials nor the polygons change. *)
Theorem materials_created (materials : list material)
        (polygons mat_ids : list Z) :
  (exists ids : list Z,
     fst (assign_materials true materials polygons mat_ids)
     = materials ++ map Mesh_ ids /\
     ascending ids /\
     (forall mid, In mid ids <-> In mid mat_ids)) /\
  (forall e : list Z,
     NoDup e -> (forall x, In x e <-> In x mat_ids) ->
     sorted e = sorted (py_set mat_ids)) /\
  assign_materials false materials polygons mat_ids = (materials, polygons).
Proof.
  split; [| split; [| reflexivity]].
  - exists (sorted (py_set mat_ids)).
    destruct (assign_materials_spec materials polygons mat_ids)
      as (d & -> & _).
    cbn [fst]. split; [reflexivity |]. apply unique_ids_spec.
  - intros e Hnd He. apply ascending_unique.
    + now apply sorted_ascending.
    + apply unique_ids_spec.
    + intros x. rewrite sorted_In, He. symmetry. apply unique_ids_spec.
Qed.

Lemma materials_created_witness :
  sorted [9; 4] = sorted (py_set [9; 4; 9]).
Proof.
  exact (proj1 (proj2 (materials_created [] [0; 0; 0] [9; 4; 9]))
               [9; 4]
               ltac:(repeat constructor; cbn; intuition lia)
               ltac:(intros x; cbn; intuition lia)).
Defined.
